(** * Audio Notatki: the note store of [app.py]

    A shallow embedding of the retrieval part of [app.py]: the Streamlit
    session state, the Qdrant collection ["notes"], the OpenAI gateways, and
    the functions [get_api_key_securely], [transcribe_audio],
    [assure_db_collection_exists], [get_embeddings], [add_note_to_db] and
    [list_notes_from_db].

    The program talks to three remote services.  Their state (the Qdrant
    collection) is part of the [World]; their failures are driven by a
    schedule of faults carried by the [World], one entry per remote call, so
    that every run of the program, failing or not, is a run of the model. *)

From Stdlib Require Import QArith.
From stdpp Require Import numbers strings gmap sorting list.

Local Open Scope Z_scope.

(** ** Python strings *)

(** A Python [str] is a sequence of Unicode code points. *)
Abbreviation pystr := (list N).

(** A string literal of the source, for ASCII text. *)
Definition py (s : string) : pystr :=
  Ascii.N_of_ascii <$> String.list_ascii_of_string s.

(** [str.isspace] on one code point: the characters [str.strip()] removes. *)
Definition isspace (c : N) : bool :=
  (((9 <=? c) && (c <=? 13)) || ((28 <=? c) && (c <=? 32))
   || (c =? 133) || (c =? 160) || (c =? 5760)
   || ((8192 <=? c) && (c <=? 8202))
   || (c =? 8232) || (c =? 8233) || (c =? 8239) || (c =? 8287)
   || (c =? 12288))%N.

Fixpoint lstrip (s : pystr) : pystr :=
  match s with
  | c :: s' => if isspace c then lstrip s' else s
  | [] => []
  end.

Definition rstrip (s : pystr) : pystr := reverse (lstrip (reverse s)).

(** [s.strip()] *)
Definition strip (s : pystr) : pystr := rstrip (lstrip s).

(** Truth value of a [str]: non-empty. *)
Definition str_truthy (s : pystr) : bool :=
  match s with [] => false | _ => true end.

(** ** Data *)

(** The constants of the program.  The collection is created with vectors
    of [EMBEDDING_DIM] coordinates and the cosine distance; the embedding
    service is asked for as many coordinates. *)
Definition EMBEDDING_DIM : nat := 3072.
Definition QDRANT_COLLECTION_NAME : string := "notes".

(** An embedding: the list of floats returned by the embedding service.
    Scores and coordinates are kept as rationals: only their order matters. *)
Abbreviation Vector := (list Q).

(** The payload dict [{"text": ..., "user_id": ...}] of a point. *)
Record Payload := { pl_text : pystr; pl_user_id : pystr }.

(** [payload[key]] as the filter reads it. *)
Definition payload_get (key : string) (pl : Payload) : option pystr :=
  if String.eqb key "text" then Some (pl_text pl)
  else if String.eqb key "user_id" then Some (pl_user_id pl)
  else None.

(** [PointStruct(id=..., vector=..., payload=...)] *)
Record PointStruct := { pt_id : Z; pt_vector : Vector; pt_payload : Payload }.

(** [models.FieldCondition(key=..., match=models.MatchValue(value=...))] *)
Record FieldCondition := { fc_key : string; fc_match : pystr }.

(** [models.Filter(must=[...])] *)
Record Filter := { must : list FieldCondition }.

Definition condition_holds (pl : Payload) (c : FieldCondition) : bool :=
  bool_decide (payload_get (fc_key c) pl = Some (fc_match c)).

Definition filter_matches (flt : Filter) (pl : Payload) : bool :=
  forallb (condition_holds pl) (must flt).

(** What the store hands back: a [ScoredPoint] from [search] (it has a
    [score] attribute) or a [Record] from [scroll] (it has none). *)
Inductive Hit :=
| ScoredPoint (i : Z) (score : Q) (pl : Payload)
| Record_ (i : Z) (pl : Payload).

Definition hit_id (n : Hit) : Z :=
  match n with ScoredPoint i _ _ | Record_ i _ => i end.

Definition hit_payload (n : Hit) : Payload :=
  match n with ScoredPoint _ _ pl | Record_ _ pl => pl end.

(** [getattr(n, "score", None)] *)
Definition getattr_score (n : Hit) : option Q :=
  match n with ScoredPoint _ s _ => Some s | Record_ _ _ => None end.

(** One element of the list [list_notes_from_db] returns:
    [{"text": ..., "score": ...}]. *)
Record Entry := { e_text : pystr; e_score : option Q }.

(** The collection: points keyed by id, and the payload indexes created on
    it (field name and schema). *)
Record Collection := {
  points : gmap Z (Vector * Payload);
  payload_indexes : list (string * string)
}.

(** The keys of [st.session_state] the program uses; [None] is an absent
    key. *)
Record SessionState := {
  api_key_verified : option bool;
  openai_api_key : option pystr;
  ss_user_id : option pystr;
  has_searched : option bool;
  last_query : option pystr;
  search_results : option (list Entry)
}.

(** The remote services. *)
Inductive collaborator := Embedding | Transcription | Provider | VectorStore.

(** The world the program runs in.  [qdrant] is the collection named
    [QDRANT_COLLECTION_NAME], the only one the program names ([None] when it
    does not exist).  [faults] decides the fate of the coming remote calls,
    in order: [Some code] makes the call raise, [None] lets it through; an
    exhausted schedule lets every call through. *)
Record World := {
  qdrant : option Collection;
  session : SessionState;
  faults : list (option Z)
}.

Definition with_qdrant (q : option Collection) (w : World) : World :=
  {| qdrant := q; session := session w; faults := faults w |}.
Definition with_session (s : SessionState) (w : World) : World :=
  {| qdrant := qdrant w; session := s; faults := faults w |}.
Definition with_faults (fs : list (option Z)) (w : World) : World :=
  {| qdrant := qdrant w; session := session w; faults := fs |}.

(** ** Exceptions and the monad of the program *)

Inductive exn :=
| KeyError (key : string)
| ApiError (who : collaborator) (code : Z)
| StopException
| RerunException.

(** [StopException] and [RerunException] are Streamlit's script-control
    exceptions; they derive from [BaseException], not from [Exception]. *)
Definition is_Exception (e : exn) : bool :=
  match e with StopException | RerunException => false | _ => true end.

Inductive outcome (A : Type) :=
| Returned (a : A)
| Raised (e : exn).
Arguments Returned {A} a.
Arguments Raised {A} e.

Definition M (A : Type) : Type := World → outcome A * World.

Global Instance M_ret : MRet M := λ A a w, (Returned a, w).
Global Instance M_bind : MBind M := λ A B f m w,
  match m w with
  | (Returned a, w') => f a w'
  | (Raised e, w') => (Raised e, w')
  end.

Definition raise {A} (e : exn) : M A := λ w, (Raised e, w).
Definition get_world : M World := λ w, (Returned w, w).
Definition put_world (w' : World) : M unit := λ _, (Returned tt, w').

(** [try: body  except: handler] (a bare [except] catches everything). *)
Definition try_except {A} (body : M A) (handler : exn → M A) : M A := λ w,
  match body w with
  | (Raised e, w') => handler e w'
  | r => r
  end.

(** [try: body  except Exception: handler] *)
Definition try_except_Exception {A} (body : M A) (handler : exn → M A) : M A :=
  try_except body (λ e, if is_Exception e then handler e else raise e).

(** One remote call to [who]: it consumes the next entry of the schedule. *)
Definition remote (who : collaborator) : M unit := λ w,
  match faults w with
  | Some code :: fs => (Raised (ApiError who code), with_faults fs w)
  | None :: fs => (Returned tt, with_faults fs w)
  | [] => (Returned tt, w)
  end.

(** [st.session_state[key]] *)
Definition session_item {A} (key : string) (field : SessionState → option A) : M A :=
  w ← get_world;
  match field (session w) with
  | Some v => mret v
  | None => raise (KeyError key)
  end.

Definition session_update (f : SessionState → SessionState) : M unit :=
  w ← get_world; put_world (with_session (f (session w)) w).

Definition set_api_key_verified (b : bool) (s : SessionState) : SessionState :=
  {| api_key_verified := Some b; openai_api_key := openai_api_key s;
     ss_user_id := ss_user_id s; has_searched := has_searched s;
     last_query := last_query s; search_results := search_results s |}.
Definition set_openai_api_key (k : pystr) (s : SessionState) : SessionState :=
  {| api_key_verified := api_key_verified s; openai_api_key := Some k;
     ss_user_id := ss_user_id s; has_searched := has_searched s;
     last_query := last_query s; search_results := search_results s |}.
Definition set_user_id (u : pystr) (s : SessionState) : SessionState :=
  {| api_key_verified := api_key_verified s; openai_api_key := openai_api_key s;
     ss_user_id := Some u; has_searched := has_searched s;
     last_query := last_query s; search_results := search_results s |}.
Definition set_search_results (r : list Entry) (s : SessionState) : SessionState :=
  {| api_key_verified := api_key_verified s; openai_api_key := openai_api_key s;
     ss_user_id := ss_user_id s; has_searched := has_searched s;
     last_query := last_query s; search_results := Some r |}.

(** Truth value of [st.session_state.get(key)] for a boolean entry: an
    absent key gives [None], which is false. *)
Definition get_truthy (v : option bool) : bool :=
  match v with Some b => b | None => false end.

(** ** The Qdrant client

    The store is not part of the program.  What follows is what the program
    relies on: a collection is a finite map from ids to points; [count] is
    its size; [upsert] inserts or replaces by id; [scroll] walks the points
    in ascending id; [search] ranks them by similarity, best first; both
    keep the points the filter lets through and stop at [limit].  Every
    operation is one remote call, and a call that fails has no effect on
    the collection. *)

Global Instance Qle_dec (x y : Q) : Decision (x <= y)%Q :=
  match Qlt_le_dec y x with
  | left H => right (Qlt_not_le _ _ H)
  | right H => left H
  end.

(** The order on scores of a similarity search: best first. *)
Definition best_first {A} (a b : Q * A) : Prop := (a.1 >= b.1)%Q.

(** The order of a scroll: ascending point id. *)
Definition by_id {A} (a b : Z * A) : Prop := a.1 ≤ b.1.

Global Instance best_first_dec {A} (a b : Q * A) : Decision (best_first a b) :=
  Qle_dec b.1 a.1.
Global Instance by_id_dec {A} (a b : Z * A) : Decision (by_id a b) :=
  Z.le_dec a.1 b.1.

(** The points of a collection in the order the store walks them. *)
Definition ordered_points (c : Collection) : list (Z * (Vector * Payload)) :=
  merge_sort by_id (map_to_list (points c)).

(** The points a filter lets through. *)
Definition filtered_points (flt : Filter) (c : Collection) : list (Z * (Vector * Payload)) :=
  filter (λ p, filter_matches flt p.2.2) (ordered_points c).

(** The collection the calls below work on; the store answers 404 when it
    does not exist. *)
Definition the_collection : M Collection :=
  w ← get_world;
  match qdrant w with
  | Some c => mret c
  | None => raise (ApiError VectorStore 404)
  end.

Definition put_collection (c : Collection) : M unit :=
  w ← get_world; put_world (with_qdrant (Some c) w).

(** [client.collection_exists(QDRANT_COLLECTION_NAME)] *)
Definition collection_exists : M bool :=
  remote VectorStore;;
  w ← get_world;
  mret (match qdrant w with Some _ => true | None => false end).

(** [client.create_collection(...)]; the store answers 409 when the
    collection is there already. *)
Definition create_collection : M unit :=
  remote VectorStore;;
  w ← get_world;
  match qdrant w with
  | Some _ => raise (ApiError VectorStore 409)
  | None => put_world (with_qdrant (Some {| points := ∅; payload_indexes := [] |}) w)
  end.

(** [client.create_payload_index(field_name=..., field_schema=...)] *)
Definition create_payload_index (field_name field_schema : string) : M unit :=
  remote VectorStore;;
  c ← the_collection;
  put_collection {| points := points c;
                    payload_indexes := (field_name, field_schema) :: payload_indexes c |}.

(** [client.count(exact=True).count] *)
Definition count : M Z :=
  remote VectorStore;;
  c ← the_collection;
  mret (Z.of_nat (size (points c))).

(** [client.upsert(points=[...])]: insert or replace, keyed by id. *)
Definition upsert (pts : list PointStruct) : M unit :=
  remote VectorStore;;
  c ← the_collection;
  put_collection
    {| points := foldl (λ m p, <[pt_id p := (pt_vector p, pt_payload p)]> m) (points c) pts;
       payload_indexes := payload_indexes c |}.

(** What a similarity search finds in a collection: the [limit] points the
    filter lets through that score best, best first. *)
Definition search_points (cosine : Vector → Vector → Q)
    (query_vector : Vector) (query_filter : Filter) (limit : nat)
    (c : Collection) : list Hit :=
  let scored := (λ p, (cosine query_vector p.2.1, (p.1, p.2.2)))
                  <$> filtered_points query_filter c in
  (λ s, ScoredPoint s.2.1 s.1 s.2.2) <$> take limit (merge_sort best_first scored).

(** What a scroll finds in a collection: the first [limit] points the
    filter lets through, and the id to resume from. *)
Definition scroll_page (scroll_filter : Filter) (limit : nat)
    (c : Collection) : list Hit * option Z :=
  let found := filtered_points scroll_filter c in
  ((λ p, Record_ p.1 p.2.2) <$> take limit found,
   fst <$> head (drop limit found)).

(** [client.search(query_vector=..., query_filter=..., limit=...)] *)
Definition search (cosine : Vector → Vector → Q)
    (query_vector : Vector) (query_filter : Filter) (limit : nat) : M (list Hit) :=
  remote VectorStore;;
  c ← the_collection;
  mret (search_points cosine query_vector query_filter limit c).

(** [client.scroll(scroll_filter=..., limit=...)] *)
Definition scroll (scroll_filter : Filter) (limit : nat) : M (list Hit * option Z) :=
  remote VectorStore;;
  c ← the_collection;
  mret (scroll_page scroll_filter limit c).

(** ** The program *)

Section App.

(** The embedding model ([text-embedding-3-large]), the similarity it is
    searched with (cosine, rounded as the store rounds it), the
    transcription model ([whisper-1]) and
    [hashlib.md5(s.encode('utf-8')).hexdigest()]. *)
Variable embedding : pystr → Vector.
Variable cosine : Vector → Vector → Q.
Variable transcription : list Z → pystr.
Variable md5_hexdigest : pystr → pystr.

(** [get_api_key_securely()], one run of the script; [raw_api_key] is what
    the password field holds in this run. *)
Definition get_api_key_securely (raw_api_key : pystr) : M pystr :=
  w ← get_world;
  (if api_key_verified (session w) is None
   then session_update (set_api_key_verified false) else mret tt);;
  verified ← session_item "api_key_verified" api_key_verified;
  (if negb verified then
     let api_key := raw_api_key in
     (if str_truthy api_key then
        try_except_Exception
          (remote Provider;;
           let user_id := md5_hexdigest api_key in
           session_update (set_openai_api_key api_key);;
           session_update (set_user_id user_id);;
           session_update (set_api_key_verified true);;
           raise RerunException)
          (λ _, mret tt)
      else mret tt);;
     raise StopException
   else mret tt);;
  session_item "openai_api_key" openai_api_key.

(** [transcribe_audio(audio_bytes)] *)
Definition transcribe_audio (audio_bytes : list Z) : M pystr :=
  remote Transcription;;
  mret (transcription audio_bytes).

(** [assure_db_collection_exists()] *)
Definition assure_db_collection_exists : M unit :=
  b ← collection_exists;
  (if negb b then create_collection else mret tt);;
  try_except (create_payload_index "user_id" "keyword") (λ _, mret tt).

(** [get_embeddings(text)] *)
Definition get_embeddings (text : pystr) : M Vector :=
  remote Embedding;;
  mret (embedding text).

(** The test [query and query.strip()] of [list_notes_from_db]: the query
    is there, is not empty and is not made of white space only. *)
Definition query_given (query : option pystr) : bool :=
  match query with
  | None => false
  | Some q => str_truthy q && str_truthy (strip q)
  end.

Definition user_filter (user_id : pystr) : Filter :=
  {| must := [ {| fc_key := "user_id"; fc_match := user_id |} ] |}.

(** The value of [notes] in [list_notes_from_db(query)]. *)
Definition select_notes (query : option pystr) : M (list Hit) :=
  user_id ← session_item "user_id" ss_user_id;
  let flt := user_filter user_id in
  let browse := (page ← scroll flt 10; mret page.1) in
  match query with
  | Some q =>
      if str_truthy q && str_truthy (strip q) then
        query_vector ← get_embeddings q;
        search cosine query_vector flt 10
      else browse
  | None => browse
  end.

Definition entry_of (n : Hit) : Entry :=
  {| e_text := pl_text (hit_payload n); e_score := getattr_score n |}.

(** [list_notes_from_db(query=None)] *)
Definition list_notes_from_db (query : option pystr) : M (list Entry) :=
  notes ← select_notes query;
  mret (entry_of <$> notes).

(** The last statement of [add_note_to_db]: when a search has been made
    in this session, its results are computed again. *)
Definition refresh_search_results : M unit :=
  w ← get_world;
  if get_truthy (has_searched (session w)) then
    last_query ← session_item "last_query" last_query;
    results ← list_notes_from_db (Some last_query);
    session_update (set_search_results results)
  else mret tt.

(** [add_note_to_db(note_text)] *)
Definition add_note_to_db (note_text : pystr) : M unit :=
  user_id ← session_item "user_id" ss_user_id;
  count ← count;
  vector ← get_embeddings note_text;
  upsert [ {| pt_id := count + 1; pt_vector := vector;
              pt_payload := {| pl_text := note_text; pl_user_id := user_id |} |} ];;
  refresh_search_results.

(** What [select_notes] finds for a user in a collection. *)
Definition notes_of (query : option pystr) (user_id : pystr) (c : Collection) : list Hit :=
  match query with
  | Some q =>
      if str_truthy q && str_truthy (strip q)
      then search_points cosine (embedding q) (user_filter user_id) 10 c
      else (scroll_page (user_filter user_id) 10 c).1
  | None => (scroll_page (user_filter user_id) 10 c).1
  end.

(** The collection once [add_note_to_db] has written a note to it. *)
Definition note_added (note_text user_id : pystr) (c : Collection) : Collection :=
  {| points := <[Z.of_nat (size (points c)) + 1 :=
                  (embedding note_text,
                   {| pl_text := note_text; pl_user_id := user_id |})]> (points c);
     payload_indexes := payload_indexes c |}.

End App.

(** ** Vocabulary of the properties *)

(** What a call leaves of the world when it only talks to a service. *)
Definition same_state (w w' : World) : Prop :=
  qdrant w' = qdrant w ∧ session w' = session w.

(** The order of a ranked list of hits: every hit carries a score, and it is
    at least the score of every hit after it. *)
Definition outranks (a b : Hit) : Prop :=
  match getattr_score a, getattr_score b with
  | Some x, Some y => (y <= x)%Q
  | _, _ => False
  end.

(** The same order on the entries handed to the caller. *)
Definition entry_outranks (a b : Entry) : Prop :=
  match e_score a, e_score b with
  | Some x, Some y => (y <= x)%Q
  | _, _ => False
  end.

(** A string with a character that is not white space. *)
Definition non_blank (q : pystr) : Prop := Exists (λ c, isspace c = false) q.

(** A string of white space only (the empty string is one). *)
Definition blank (q : pystr) : Prop := Forall (λ c, isspace c = true) q.

(** The id the next [add_note_to_db] gives its note: the number of points
    in the collection, plus one. *)
Definition next_id (w : World) : Z :=
  match qdrant w with
  | Some c => Z.of_nat (size (points c)) + 1
  | None => 1
  end.

(** The collection of [w] holds, under id [i], a point with payload [pl]. *)
Definition holds_note (w : World) (i : Z) (pl : Payload) : Prop :=
  ∃ c v, qdrant w = Some c ∧ points c !! i = Some (v, pl).

(** The number of notes of a user in the collection of [w]. *)
Definition owned (user_id : pystr) (w : World) : nat :=
  match qdrant w with
  | Some c => length (filtered_points (user_filter user_id) c)
  | None => 0
  end.

(** The number of notes of a user that the collection of [w] holds under
    an id below [i]. *)
Definition owned_below (user_id : pystr) (i : Z) (w : World) : nat :=
  match qdrant w with
  | Some c => length (filter (λ p, p.1 < i) (filtered_points (user_filter user_id) c))
  | None => 0
  end.

(** The schedule of faults between two worlds of a run: [n] calls went
    through. *)
Definition calls_passed (w w' : World) : Prop :=
  ∃ n : nat, faults w = replicate n None ++ faults w'.

(** [n] calls went through, the next one failed with [code], and no call
    was made after it. *)
Definition call_failed (code : Z) (w w' : World) : Prop :=
  ∃ n : nat, faults w = replicate n None ++ Some code :: faults w'.

(** The outcome of a run shows the failure of a service as it came: an
    [ApiError] is the failure of the last call made (or the answer of the
    store about a collection that is absent, 404, or there already, 409),
    and a run that ends otherwise has seen no call fail. *)
Definition unmodified {A} (w : World) (r : outcome A) (w' : World) : Prop :=
  match r with
  | Raised (ApiError who code) =>
      call_failed code w w' ∨
      (who = VectorStore ∧ (code = 404 ∨ code = 409) ∧ calls_passed w w')
  | _ => calls_passed w w'
  end.

(** A piece of program that hands every failure of a service to its caller. *)
Definition propagates {A} (m : M A) : Prop :=
  ∀ w r w', m w = (r, w') → unmodified w r w'.

Section Histories.

Variable embedding : pystr → Vector.
Variable cosine : Vector → Vector → Q.

(** The points of a collection that started empty and was written to by
    one [add_note_to_db] after the other, for the users and texts of
    [adds], oldest first. *)
Definition points_after (adds : list (pystr * pystr)) : gmap Z (Vector * Payload) :=
  foldl (λ m a, <[Z.of_nat (size m) + 1 :=
                    (embedding a.2, {| pl_text := a.2; pl_user_id := a.1 |})]> m)
        ∅ adds.

(** The point [add_note_to_db] writes for the [k]-th add (from 0). *)
Definition stored_of (k : nat) (a : pystr * pystr) : Z * (Vector * Payload) :=
  (Z.of_nat k + 1, (embedding a.2, {| pl_text := a.2; pl_user_id := a.1 |})).

(** Sequential runs of the program from [w0]: calls of [add_note_to_db],
    [list_notes_from_db] and [assure_db_collection_exists], one at a time,
    from any session and under any schedule of faults.  The index counts
    the calls of [add_note_to_db] that wrote their note. *)
Inductive reaches (w0 : World) : nat → World → Prop :=
| reaches_start : reaches w0 0 w0
| reaches_add n w note_text w' :
    reaches w0 n w →
    add_note_to_db embedding cosine note_text w = (Returned tt, w') →
    reaches w0 (S n) w'
| reaches_add_raised n w note_text e w' :
    reaches w0 n w →
    add_note_to_db embedding cosine note_text w = (Raised e, w') →
    qdrant w' = qdrant w →
    reaches w0 n w'
| reaches_add_raised_late n w note_text e w' :
    reaches w0 n w →
    add_note_to_db embedding cosine note_text w = (Raised e, w') →
    qdrant w' ≠ qdrant w →
    reaches w0 (S n) w'
| reaches_list n w query r w' :
    reaches w0 n w →
    list_notes_from_db embedding cosine query w = (r, w') →
    reaches w0 n w'
| reaches_assure n w r w' :
    reaches w0 n w →
    assure_db_collection_exists w = (r, w') →
    reaches w0 n w'
| reaches_session n w s :
    reaches w0 n w → reaches w0 n (with_session s w)
| reaches_faults n w fs :
    reaches w0 n w → reaches w0 n (with_faults fs w).

End Histories.

(** ** Sample data *)

(** An embedding and a similarity to run the program on: a text is sent to
    its length, and two vectors are compared by the product of their first
    coordinates. *)
Definition sample_embedding (s : pystr) : Vector := [inject_Z (Z.of_nat (length s))].
Definition sample_cosine (a b : Vector) : Q :=
  match a, b with
  | x :: _, y :: _ => (x * y)%Q
  | _, _ => 0%Q
  end.

(** The session of a verified user who has not searched yet. *)
Definition sample_session (user_id : pystr) : SessionState :=
  {| api_key_verified := Some true; openai_api_key := Some (py "sk-1");
     ss_user_id := Some user_id; has_searched := Some false;
     last_query := Some []; search_results := Some [] |}.

(** The session of a verified user whose last search was for [q]. *)
Definition searching_session (user_id q : pystr) : SessionState :=
  {| api_key_verified := Some true; openai_api_key := Some (py "sk-1");
     ss_user_id := Some user_id; has_searched := Some true;
     last_query := Some q; search_results := Some [] |}.

(** A world with the collection created and empty, and no fault ahead. *)
Definition fresh_world (s : SessionState) : World :=
  {| qdrant := Some {| points := ∅; payload_indexes := [("user_id", "keyword")] |};
     session := s; faults := [] |}.

(** The world after the notes [texts] were added from [w], one by one. *)
Definition after_adding (texts : list pystr) (w : World) : World :=
  foldl (λ w t, (add_note_to_db sample_embedding sample_cosine t w).2) w texts.

(** The value a call returned, or [d] when it raised. *)
Definition returned_or {A} (d : A) (r : outcome A) : A :=
  match r with Returned a => a | Raised _ => d end.

Definition alice : pystr := py "alice".
Definition bob : pystr := py "bob".

Definition sample_add := add_note_to_db sample_embedding sample_cosine.
Definition sample_list := list_notes_from_db sample_embedding sample_cosine.

(** Alice opens the application on an empty collection, and saves one note. *)
Definition w_alice : World := fresh_world (sample_session alice).
Definition w_milk : World := after_adding [py "buy milk tomorrow"] w_alice.

(** Bob opens the application on the collection Alice wrote to, and saves
    a note of his own. *)
Definition w_bob : World := with_session (sample_session bob) w_milk.
Definition w_fence : World := after_adding [py "paint the fence"] w_bob.

(** Alice has saved three notes. *)
Definition w_three : World :=
  after_adding [py "buy milk tomorrow"; py "call the plumber"; py "walk"] w_alice.

(** Alice has saved ten notes. *)
Definition w_ten : World :=
  after_adding [py "n0"; py "n1"; py "n2"; py "n3"; py "n4";
                py "n5"; py "n6"; py "n7"; py "n8"; py "n9"] w_alice.

(** Alice has searched for ["milk"] in an empty collection. *)
Definition w_searching : World := fresh_world (searching_session alice (py "milk")).

(** The collection is there; the second call to the store will fail with a
    500. *)
Definition w_index_fails : World := with_faults [None; Some 500] w_alice.

(** The embedding service will fail with a 429 on the second text it is
    given: the count, the embedding of the note and the upsert go through,
    the embedding of the remembered query does not. *)
Definition w_refresh_fails : World :=
  with_faults [None; None; None; Some 429] w_searching.

(** The embedding service will fail with a 429 on the text of the note. *)
Definition w_embedding_fails : World := with_faults [None; Some 429] w_alice.

(** ** The page

    The script of [app.py] runs from top to bottom each time the user does
    something.  What the widgets give in a run is an input of the run;
    what the run shows is recorded on a screen. *)

(** The keys of [st.session_state] that only the page uses. *)
Record PageState := {
  active_tab : option Z;
  note_audio_bytes : option (list Z);
  note_audio_bytes_md5 : option pystr;
  note_audio_text : option pystr;
  note_text : option pystr
}.

Definition set_active_tab (t : Z) (ps : PageState) : PageState :=
  {| active_tab := Some t; note_audio_bytes := note_audio_bytes ps;
     note_audio_bytes_md5 := note_audio_bytes_md5 ps;
     note_audio_text := note_audio_text ps; note_text := note_text ps |}.
Definition set_note_audio_bytes (b : list Z) (ps : PageState) : PageState :=
  {| active_tab := active_tab ps; note_audio_bytes := Some b;
     note_audio_bytes_md5 := note_audio_bytes_md5 ps;
     note_audio_text := note_audio_text ps; note_text := note_text ps |}.
Definition set_note_audio_text (t : pystr) (ps : PageState) : PageState :=
  {| active_tab := active_tab ps; note_audio_bytes := note_audio_bytes ps;
     note_audio_bytes_md5 := note_audio_bytes_md5 ps;
     note_audio_text := Some t; note_text := note_text ps |}.
Definition set_note_text (t : pystr) (ps : PageState) : PageState :=
  {| active_tab := active_tab ps; note_audio_bytes := note_audio_bytes ps;
     note_audio_bytes_md5 := note_audio_bytes_md5 ps;
     note_audio_text := note_audio_text ps; note_text := Some t |}.

(** [st.session_state.update(note_audio_bytes_md5=md, note_audio_text="",
    note_text="")] *)
Definition new_recording (md : pystr) (ps : PageState) : PageState :=
  {| active_tab := active_tab ps; note_audio_bytes := note_audio_bytes ps;
     note_audio_bytes_md5 := Some md;
     note_audio_text := Some []; note_text := Some [] |}.

Definition set_last_query (q : pystr) (s : SessionState) : SessionState :=
  {| api_key_verified := api_key_verified s; openai_api_key := openai_api_key s;
     ss_user_id := ss_user_id s; has_searched := has_searched s;
     last_query := Some q; search_results := search_results s |}.
Definition set_has_searched (b : bool) (s : SessionState) : SessionState :=
  {| api_key_verified := api_key_verified s; openai_api_key := openai_api_key s;
     ss_user_id := ss_user_id s; has_searched := Some b;
     last_query := last_query s; search_results := search_results s |}.

(** The two headers of the results: [f"Wyniki wyszukiwania ({cnt})"] and
    [f"Wszystkie notatki ({cnt})"]. *)
Inductive Header :=
| Wyniki_wyszukiwania (cnt : nat)
| Wszystkie_notatki (cnt : nat).

(** What a run shows. *)
Inductive Element :=
| Title                          (* st.title("Audio Notatki") *)
| Audio (data : list Z)          (* st.audio(..., format="audio/mp3") *)
| Toast                          (* st.toast("Notatka zapisana") *)
| Subheader (hdr : Header)       (* st.subheader(hdr) *)
| Markdown (text : pystr)        (* st.markdown(note["text"]) *)
| Markdown_score (score : Q)     (* st.markdown(f':violet[{note["score"]}]') *)
| Info_brak_wynikow.             (* st.info("Brak wyników dla tego zapytania") *)

(** What the widgets give in one run of the script. *)
Record Inputs := {
  in_raw_api_key : pystr;            (* the password field *)
  in_note_audio : option (list Z);   (* the recording exported to mp3;
                                        [None] when nothing is recorded *)
  in_transcribe : bool;              (* st.button("Transkrybuj audio") *)
  in_text_area : pystr;              (* st.text_area("Edytuj notatkę", ...) *)
  in_save : bool;                    (* st.button("Zapisz notatkę") *)
  in_query : pystr;                  (* st.text_input("Wyszukaj notatkę", ...) *)
  in_search : bool                   (* st.button("Szukaj") *)
}.

Record Page := {
  world : World;
  page_state : PageState;
  screen : list Element
}.

Definition with_world (w : World) (p : Page) : Page :=
  {| world := w; page_state := page_state p; screen := screen p |}.
Definition with_page_state (ps : PageState) (p : Page) : Page :=
  {| world := world p; page_state := ps; screen := screen p |}.

(** The monad of a run of the script. *)
Definition Run (A : Type) : Type := Page → outcome A * Page.

Global Instance Run_ret : MRet Run := λ A a p, (Returned a, p).
Global Instance Run_bind : MBind Run := λ A B f m p,
  match m p with
  | (Returned a, p') => f a p'
  | (Raised e, p') => (Raised e, p')
  end.

(** A function of the program called from the script. *)
Definition lift {A} (m : M A) : Run A := λ p,
  let (r, w') := m (world p) in (r, with_world w' p).

Definition page_read : Run PageState := λ p, (Returned (page_state p), p).

Definition page_update (f : PageState → PageState) : Run unit := λ p,
  (Returned tt, with_page_state (f (page_state p)) p).

(** [st.session_state[key]] for a key of the page. *)
Definition page_item {A} (key : string) (field : PageState → option A) : Run A := λ p,
  match field (page_state p) with
  | Some v => (Returned v, p)
  | None => (Raised (KeyError key), p)
  end.

Definition show (e : Element) : Run unit := λ p,
  (Returned tt, {| world := world p; page_state := page_state p;
                   screen := screen p ++ [e] |}).

(** [for x in l: body(x)] *)
Fixpoint for_each {A} (l : list A) (body : A → Run unit) : Run unit :=
  match l with
  | [] => mret tt
  | x :: l' => body x;; for_each l' body
  end.

(** Truth value of [st.session_state.get(key)] for a string: an absent key
    gives [None], and [None] and the empty string are false. *)
Definition get_str_truthy (v : option pystr) : bool :=
  match v with Some s => str_truthy s | None => false end.

(** Truth value of [note["score"]]: [None] and a zero are false. *)
Definition score_truthy (s : option Q) : bool :=
  match s with Some x => negb (Qeq_bool x 0) | None => false end.

(** A session with the keys the two tabs read. *)
Definition ready (s : SessionState) : Prop :=
  is_Some (ss_user_id s) ∧ is_Some (last_query s) ∧
  is_Some (search_results s) ∧ is_Some (has_searched s).

(** [s'] has the credential of [s], and the keys of the search that [s]
    has. *)
Definition carries_on (s s' : SessionState) : Prop :=
  api_key_verified s' = api_key_verified s ∧
  openai_api_key s' = openai_api_key s ∧
  ss_user_id s' = ss_user_id s ∧
  (is_Some (last_query s) → is_Some (last_query s')) ∧
  (is_Some (search_results s) → is_Some (search_results s')) ∧
  (is_Some (has_searched s) → is_Some (has_searched s')).

(** A verified session holds its key, and as user the digest of the key. *)
Definition credential_ok (md5_hexdigest : pystr → pystr) (s : SessionState) : Prop :=
  api_key_verified s = Some true →
  ∃ k, openai_api_key s = Some k ∧ ss_user_id s = Some (md5_hexdigest k).

(** The texts and the scores a screen shows, in order. *)
Definition shown_texts (l : list Element) : list pystr :=
  omap (λ e, match e with Markdown t => Some t | _ => None end) l.
Definition shown_scores (l : list Element) : list Q :=
  omap (λ e, match e with Markdown_score s => Some s | _ => None end) l.

(** What [show_note] puts on the screen. *)
Definition card (note : Entry) : list Element :=
  Markdown (e_text note)
  :: (if score_truthy (e_score note)
      then [Markdown_score (default 0%Q (e_score note))] else []).

Section Script.

Variable embedding : pystr → Vector.
Variable cosine : Vector → Vector → Q.
Variable transcription : list Z → pystr.
Variable md5_hexdigest : pystr → pystr.

(** [md5(data).hexdigest()] on bytes. *)
Variable md5_bytes_hexdigest : list Z → pystr.

(** Lines 132 to 141: the keys of the search get a value if they have none. *)
Definition init_search_state : Run unit :=
  ps ← page_read;
  (if active_tab ps is None then page_update (set_active_tab 0) else mret tt);;
  lift (w ← get_world;
        if search_results (session w) is None
        then session_update (set_search_results []) else mret tt);;
  lift (w ← get_world;
        if last_query (session w) is None
        then session_update (set_last_query []) else mret tt);;
  lift (w ← get_world;
        if has_searched (session w) is None
        then session_update (set_has_searched false) else mret tt).

(** Lines 146 to 166: the tab that records, transcribes and saves a note. *)
Definition add_tab (inp : Inputs) : Run unit :=
  page_update (set_active_tab 0);;
  match in_note_audio inp with
  | Some exported =>
      page_update (set_note_audio_bytes exported);;
      data ← page_item "note_audio_bytes" note_audio_bytes;
      let md := md5_bytes_hexdigest data in
      ps ← page_read;
      (if bool_decide (note_audio_bytes_md5 ps = Some md)
       then mret tt else page_update (new_recording md));;
      data ← page_item "note_audio_bytes" note_audio_bytes;
      show (Audio data);;
      (if in_transcribe inp then
         data ← page_item "note_audio_bytes" note_audio_bytes;
         text ← lift (transcribe_audio transcription data);
         page_update (set_note_audio_text text)
       else mret tt);;
      ps ← page_read;
      (if get_str_truthy (note_audio_text ps) then
         _ ← page_item "note_audio_text" note_audio_text;
         page_update (set_note_text (in_text_area inp))
       else mret tt);;
      ps ← page_read;
      (if get_str_truthy (note_text ps) && in_save inp then
         text ← page_item "note_text" note_text;
         lift (add_note_to_db embedding cosine text);;
         show Toast
       else mret tt)
  | None => mret tt
  end.

(** Lines 183 to 187: one note of the results. *)
Definition show_note (note : Entry) : Run unit :=
  show (Markdown (e_text note));;
  if score_truthy (e_score note)
  then show (Markdown_score (default 0%Q (e_score note)))
  else mret tt.

(** Lines 168 to 189: the tab that searches and shows the results. *)
Definition search_tab (inp : Inputs) : Run unit :=
  page_update (set_active_tab 1);;
  _ ← lift (session_item "last_query" last_query);
  let q := in_query inp in
  (if in_search inp then
     lift (session_update (set_last_query q));;
     results ← lift (list_notes_from_db embedding cosine (Some q));
     lift (session_update (set_search_results results));;
     lift (session_update (set_has_searched true));;
     lift (raise RerunException)
   else mret tt);;
  results ← lift (session_item "search_results" search_results);
  match results with
  | _ :: _ =>
      let cnt := length results in
      last ← lift (session_item "last_query" last_query);
      let hdr := if str_truthy (strip last)
                 then Wyniki_wyszukiwania cnt else Wszystkie_notatki cnt in
      show (Subheader hdr);;
      results ← lift (session_item "search_results" search_results);
      for_each results show_note
  | [] =>
      lift (session_item "has_searched" has_searched) ≫= λ searched : bool,
      if searched then show Info_brak_wynikow else mret tt
  end.

(** The script, from line 50 on. *)
Definition script (inp : Inputs) : Run unit :=
  _ ← lift (get_api_key_securely md5_hexdigest (in_raw_api_key inp));
  lift assure_db_collection_exists;;
  show Title;;
  init_search_state;;
  add_tab inp;;
  search_tab inp.

End Script.

(** A piece of program that raises nothing but failures of the services. *)
Definition api_only {A} (m : M A) : Prop :=
  ∀ w r w' e, m w = (r, w') → r = Raised e → ∃ who code, e = ApiError who code.

(** ** Sample data for the page *)

(** Eleven notes of Alice, of lengths 1 to 11: under [sample_embedding] and
    [sample_cosine] the longer a note, the better it scores. *)
Definition w_ranked : World :=
  after_adding [py "a"; py "bb"; py "ccc"; py "dddd"; py "eeeee"; py "ffffff";
                py "ggggggg"; py "hhhhhhhh"; py "iiiiiiiii"; py "jjjjjjjjjj";
                py "kkkkkkkkkkk"] w_alice.

(** Alice and Bob have one note each; Alice is at the keyboard. *)
Definition w_shared : World := with_session (sample_session alice) w_fence.

(** A collection whose only point has id 2, a note of Bob: the point of
    id 1 was removed.  Alice is at the keyboard. *)
Definition w_gap : World :=
  {| qdrant := Some {| points := {[ 2 := (sample_embedding (py "keep me"),
                                          {| pl_text := py "keep me"; pl_user_id := bob |}) ]};
                       payload_indexes := [("user_id", "keyword")] |};
     session := sample_session alice; faults := [] |}.

(** No collection yet. *)
Definition w_absent : World :=
  {| qdrant := None; session := sample_session alice; faults := [] |}.

(** A session that has just been opened. *)
Definition new_session : SessionState :=
  {| api_key_verified := None; openai_api_key := None; ss_user_id := None;
     has_searched := None; last_query := None; search_results := None |}.

(** A digest to run the program on: the key with a prefix. *)
Definition sample_md5 (s : pystr) : pystr := py "md5-" ++ s.
Definition sample_md5_bytes (data : list Z) : pystr := Z.to_N <$> data.
Definition sample_transcription (audio_bytes : list Z) : pystr :=
  match audio_bytes with [] => [] | _ => py "buy milk tomorrow" end.

(** The world once the key ["sk-2"] has been accepted in a new session. *)
Definition w_verified : World :=
  (get_api_key_securely sample_md5 (py "sk-2") (fresh_world new_session)).2.

(** A search has been made in a session that lost its [last_query]. *)
Definition w_no_last_query : World :=
  fresh_world {| api_key_verified := Some true; openai_api_key := Some (py "sk-1");
                 ss_user_id := Some alice; has_searched := Some true;
                 last_query := None; search_results := Some [] |}.

Definition empty_page_state : PageState :=
  {| active_tab := None; note_audio_bytes := None; note_audio_bytes_md5 := None;
     note_audio_text := None; note_text := None |}.

(** A page at the start of a run. *)
Definition page_of (w : World) (ps : PageState) : Page :=
  {| world := w; page_state := ps; screen := [] |}.

(** The session holds the recording [[1; 2]], its transcript and its text. *)
Definition old_page_state : PageState :=
  {| active_tab := Some 0; note_audio_bytes := Some [1; 2];
     note_audio_bytes_md5 := Some (sample_md5_bytes [1; 2]);
     note_audio_text := Some (py "call the plumber");
     note_text := Some (py "call the plumber") |}.

(** Nothing is typed, recorded or clicked. *)
Definition idle : Inputs :=
  {| in_raw_api_key := []; in_note_audio := None; in_transcribe := false;
     in_text_area := []; in_save := false; in_query := []; in_search := false |}.

(** The recording [[73; 68; 51]] is there, and the save button is clicked
    with ["buy milk"] in the text area. *)
Definition saving : Inputs :=
  {| in_raw_api_key := []; in_note_audio := Some [73; 68; 51];
     in_transcribe := false; in_text_area := py "buy milk"; in_save := true;
     in_query := []; in_search := false |}.

(** The same, with a click on the transcribe button as well. *)
Definition transcribing : Inputs :=
  {| in_raw_api_key := []; in_note_audio := Some [73; 68; 51];
     in_transcribe := true; in_text_area := py "buy milk"; in_save := true;
     in_query := []; in_search := false |}.

(** The search button is clicked with ["milk"] in the field. *)
Definition searching : Inputs :=
  {| in_raw_api_key := []; in_note_audio := None; in_transcribe := false;
     in_text_area := []; in_save := false; in_query := py "milk"; in_search := true |}.

Definition sample_add_tab := add_tab sample_embedding sample_cosine sample_transcription sample_md5_bytes.
Definition sample_search_tab := search_tab sample_embedding sample_cosine.
Definition sample_script :=
  script sample_embedding sample_cosine sample_transcription sample_md5 sample_md5_bytes.

(** The page of Alice once her search for ["milk"] among her three notes has
    been stored, at the start of the next run. *)
Definition page_searched : Page :=
  page_of (world (sample_search_tab searching (page_of w_three empty_page_state)).2)
          empty_page_state.

(** * Properties *)

(** ** Strings *)

Lemma lstrip_nil_iff (s : pystr) : lstrip s = [] ↔ Forall (λ c, isspace c = true) s.
Proof.
  induction s as [|c s IH]; simpl.
  - split; [constructor | done].
  - destruct (isspace c) eqn:Hc.
    + rewrite IH. split; [by constructor | by inversion 1].
    + split; [done | inversion 1; congruence].
Qed.

Lemma lstrip_blank_tail (s : pystr) :
  Forall (λ c, isspace c = true) (lstrip s) → Forall (λ c, isspace c = true) s.
Proof.
  induction s as [|c s IH]; simpl; [done|].
  destruct (isspace c) eqn:Hc; [|done].
  intros H. constructor; auto.
Qed.

(** [s.strip()] is empty exactly when [s] holds white space only. *)
Lemma strip_nil_iff (s : pystr) : strip s = [] ↔ Forall (λ c, isspace c = true) s.
Proof.
  unfold strip, rstrip. split.
  - intros H. apply lstrip_blank_tail.
    apply (f_equal reverse) in H. rewrite reverse_involutive in H.
    apply lstrip_nil_iff in H. rewrite Forall_reverse in H. exact H.
  - intros H. apply lstrip_nil_iff in H. rewrite H. reflexivity.
Qed.

Lemma str_truthy_true (s : pystr) : str_truthy s = true ↔ s ≠ [].
Proof. destruct s; simpl; split; done. Qed.

(** ** The store *)

Global Instance by_id_total {A} : Total (@by_id A).
Proof. intros a b. unfold by_id. lia. Qed.
Global Instance by_id_trans {A} : Transitive (@by_id A).
Proof. intros a b c. unfold by_id. lia. Qed.
Global Instance best_first_total {A} : Total (@best_first A).
Proof.
  intros a b. unfold best_first.
  destruct (Qlt_le_dec a.1 b.1) as [H|H]; [right; by apply Qlt_le_weak | by left].
Qed.
Global Instance best_first_trans {A} : Transitive (@best_first A).
Proof. intros a b c. unfold best_first. intros H1 H2. by eapply Qle_trans. Qed.

Lemma elem_of_ordered_points c i b :
  (i, b) ∈ ordered_points c ↔ points c !! i = Some b.
Proof.
  unfold ordered_points. rewrite merge_sort_Permutation.
  apply elem_of_map_to_list.
Qed.

Lemma ordered_points_sorted c : StronglySorted by_id (ordered_points c).
Proof. unfold ordered_points. apply (StronglySorted_merge_sort _). Qed.

Lemma filter_matches_user u pl :
  filter_matches (user_filter u) pl = true ↔ pl_user_id pl = u.
Proof.
  unfold filter_matches, user_filter, condition_holds, payload_get. simpl.
  rewrite andb_true_r, bool_decide_eq_true. naive_solver.
Qed.

Lemma elem_of_filtered_points flt c i v pl :
  (i, (v, pl)) ∈ filtered_points flt c ↔
  points c !! i = Some (v, pl) ∧ filter_matches flt pl = true.
Proof.
  unfold filtered_points. rewrite list_elem_of_filter, elem_of_ordered_points.
  simpl. rewrite Is_true_true. tauto.
Qed.

Lemma filtered_points_NoDup flt c : NoDup (filtered_points flt c).*1.
Proof.
  unfold filtered_points.
  eapply sublist_NoDup; [|apply fmap_sublist, sublist_filter].
  unfold ordered_points. rewrite merge_sort_Permutation.
  apply NoDup_fst_map_to_list.
Qed.

Lemma filtered_points_sorted flt c : StronglySorted by_id (filtered_points flt c).
Proof.
  unfold filtered_points.
  induction (ordered_points_sorted c) as [|p l Hl IH Hp]; [constructor|].
  rewrite filter_cons. case_decide; [|done].
  constructor; [done|]. apply Forall_forall. intros x [_ Hx]%list_elem_of_filter.
  by eapply Forall_forall in Hp.
Qed.

Lemma hit_id_scroll_page flt limit c :
  hit_id <$> (scroll_page flt limit c).1 = (take limit (filtered_points flt c)).*1.
Proof. unfold scroll_page. simpl. by rewrite <- list_fmap_compose. Qed.

Lemma filter_none {A} (P : A → Prop) `{∀ x, Decision (P x)} (l : list A) :
  (∀ x, x ∈ l → ¬ P x) → filter P l = [].
Proof.
  induction l as [|x l IH]; intros Hl; [done|].
  rewrite filter_cons_False by (apply Hl; by left).
  apply IH. intros y Hy. apply Hl. by right.
Qed.

Lemma filter_all {A} (P : A → Prop) `{∀ x, Decision (P x)} (l : list A) :
  (∀ x, x ∈ l → P x) → filter P l = l.
Proof.
  induction l as [|x l IH]; intros Hl; [done|].
  rewrite filter_cons_True by (apply Hl; by left).
  f_equal. apply IH. intros y Hy. apply Hl. by right.
Qed.

(** In a list in ascending order of distinct ids, a point is among the
    first [k] exactly when fewer than [k] points have a lower id. *)
Lemma elem_of_take_by_id {A} (l : list (Z * A)) (k : nat) (p : Z * A) :
  StronglySorted by_id l → NoDup l.*1 → p ∈ l →
  p.1 ∈ (take k l).*1 ↔ (length (filter (λ q : Z * A, (q.1 < p.1)%Z) l) < k)%nat.
Proof.
  intros Hsorted. revert k.
  induction Hsorted as [|x l Hl IH Hx]; intros k Hnodup Hp.
  { by apply elem_of_nil in Hp. }
  rewrite fmap_cons in Hnodup. apply NoDup_cons in Hnodup as [Hfresh Hnodup].
  assert (∀ q, q ∈ l → x.1 < q.1) as Hlt.
  { intros q Hq. rewrite Forall_forall in Hx. pose proof (Hx q Hq) as Hle.
    unfold by_id in Hle. assert (x.1 ≠ q.1); [|lia].
    intros Heq. apply Hfresh. rewrite Heq. by apply list_elem_of_fmap_2. }
  destruct k as [|k].
  { simpl. split; [by intros ?%elem_of_nil|lia]. }
  rewrite firstn_cons, fmap_cons, elem_of_cons.
  apply elem_of_cons in Hp as [->|Hp].
  - rewrite filter_cons_False by lia.
    rewrite filter_none; [simpl; split; [lia|by left]|].
    intros q Hq. specialize (Hlt q Hq). lia.
  - specialize (Hlt p Hp). rewrite filter_cons_True by done. simpl.
    rewrite <- Nat.succ_lt_mono, <- (IH k Hnodup Hp).
    split; [intros [Heq|?]; [lia|done]|by right].
Qed.

(** When no point of the list has a higher id than [p], the points with
    a lower id are all the others. *)
Lemma length_filter_below_top {A} (l : list (Z * A)) (p : Z * A) :
  NoDup l.*1 → p ∈ l → (∀ q, q ∈ l → q.1 ≤ p.1) →
  S (length (filter (λ q, q.1 < p.1) l)) = length l.
Proof.
  induction l as [|x l IH]; intros Hnodup Hp Htop.
  { by apply elem_of_nil in Hp. }
  rewrite fmap_cons in Hnodup. apply NoDup_cons in Hnodup as [Hfresh Hnodup].
  destruct (decide (x.1 = p.1)) as [Heq|Hne].
  - rewrite filter_cons_False by lia. simpl. f_equal. f_equal.
    apply filter_all. intros q Hq.
    assert (q.1 ≤ p.1) by (apply Htop; by right).
    assert (q.1 ≠ x.1); [|lia].
    intros Hq1. apply Hfresh. rewrite <- Hq1. by apply list_elem_of_fmap_2.
  - assert (x.1 ≤ p.1) by (apply Htop; by left).
    rewrite filter_cons_True by lia. simpl. f_equal.
    apply elem_of_cons in Hp as [->|Hp]; [done|].
    apply IH; [done..|]. intros q Hq. apply Htop. by right.
Qed.

Lemma length_search_points cosine qv flt limit c :
  (length (search_points cosine qv flt limit c) ≤ limit)%nat.
Proof. unfold search_points. rewrite length_fmap, length_take. lia. Qed.

Lemma elem_of_search_points cosine qv flt limit c n :
  n ∈ search_points cosine qv flt limit c →
  ∃ i v pl, n = ScoredPoint i (cosine qv v) pl ∧
            points c !! i = Some (v, pl) ∧ filter_matches flt pl = true.
Proof.
  unfold search_points. intros Hn.
  apply list_elem_of_fmap in Hn as ([s [i pl]] & -> & Hs).
  apply (subseteq_take limit) in Hs.
  rewrite merge_sort_Permutation in Hs.
  apply list_elem_of_fmap in Hs as ([j [v pl']] & Heq & Hp).
  simpl in Heq. simplify_eq.
  apply elem_of_filtered_points in Hp as [? ?]. simpl. eauto 10.
Qed.

Lemma search_points_ranked cosine qv flt limit c :
  StronglySorted outranks (search_points cosine qv flt limit c).
Proof.
  unfold search_points.
  apply (StronglySorted_fmap _ best_first); [by intros [] []|].
  eapply StronglySorted_app_1_l. rewrite take_drop.
  apply (StronglySorted_merge_sort _).
Qed.

(** ** Running the program *)

(** Unfolding the monad and the primitive calls. *)
Ltac run_unfold :=
  unfold session_item, session_update, the_collection, put_collection,
    try_except_Exception, try_except in *;
  unfold mbind, M_bind, mret, M_ret, raise, get_world, put_world in *;
  cbv beta in *.

(** Unfolding one function of the program. *)
Ltac unfold_select_notes := unfold select_notes in *.
Ltac unfold_notes_of := unfold notes_of in *.
Ltac unfold_list_notes_from_db := unfold list_notes_from_db in *.
Ltac unfold_refresh_search_results := unfold refresh_search_results in *.
Ltac unfold_add_note_to_db := unfold add_note_to_db in *.
Ltac unfold_points_after := unfold points_after in *.
Ltac unfold_get_api_key_securely := unfold get_api_key_securely in *.
Ltac unfold_add_tab := unfold add_tab in *.
Ltac unfold_search_tab := unfold search_tab in *.
Ltac unfold_script := unfold script in *.

(** Case analysis on the world a single remote call starts in. *)
Ltac one_call w :=
  destruct w as [[?c|] ?s [|[?code|] ?fs]]; run_unfold; unfold remote in *;
  cbn [faults qdrant session with_faults with_qdrant with_session fst snd] in *.

Lemma bind_inv {A B} (m : M A) (f : A → M B) w r w' :
  (m ≫= f) w = (r, w') →
  (∃ a w1, m w = (Returned a, w1) ∧ f a w1 = (r, w')) ∨
  (∃ e, m w = (Raised e, w') ∧ r = Raised e).
Proof.
  unfold mbind, M_bind. destruct (m w) as [[a|e] w1]; intros H.
  - left. eauto.
  - right. exists e. by simplify_eq.
Qed.

Lemma bind_returned {A B} (m : M A) (f : A → M B) w a w1 :
  m w = (Returned a, w1) → (m ≫= f) w = f a w1.
Proof. unfold mbind, M_bind. by intros ->. Qed.

Lemma bind_raised {A B} (m : M A) (f : A → M B) w e w1 :
  m w = (Raised e, w1) → (m ≫= f) w = (Raised e, w1).
Proof. unfold mbind, M_bind. by intros ->. Qed.

Lemma session_item_inv {A} key (field : SessionState → option A) w r w' :
  session_item key field w = (r, w') →
  w' = w ∧ match field (session w) with
           | Some v => r = Returned v
           | None => r = Raised (KeyError key)
           end.
Proof.
  run_unfold. destruct (field (session w)); intros; by simplify_eq.
Qed.

Lemma session_item_Some {A} key (field : SessionState → option A) w v :
  field (session w) = Some v → session_item key field w = (Returned v, w).
Proof. run_unfold. by intros ->. Qed.

Lemma count_inv w r w' :
  count w = (r, w') →
  same_state w w' ∧
  ∀ n, r = Returned n → ∃ c, qdrant w = Some c ∧ n = Z.of_nat (size (points c)).
Proof.
  unfold count, same_state. one_call w; intros; simplify_eq; naive_solver.
Qed.

Lemma upsert_inv pts w r w' :
  upsert pts w = (r, w') →
  session w' = session w ∧
  match r with
  | Returned _ =>
      ∃ c, qdrant w = Some c ∧
           qdrant w' = Some {| points := foldl (λ m p, <[pt_id p := (pt_vector p, pt_payload p)]> m)
                                           (points c) pts;
                               payload_indexes := payload_indexes c |}
  | Raised _ => qdrant w' = qdrant w
  end.
Proof.
  unfold upsert. one_call w; intros; simplify_eq; naive_solver.
Qed.

Lemma search_inv cosine qv flt limit w r w' :
  search cosine qv flt limit w = (r, w') →
  same_state w w' ∧
  ∀ hits, r = Returned hits →
    ∃ c, qdrant w = Some c ∧ hits = search_points cosine qv flt limit c.
Proof.
  unfold search, same_state. one_call w; intros; simplify_eq; naive_solver.
Qed.

Lemma scroll_inv flt limit w r w' :
  scroll flt limit w = (r, w') →
  same_state w w' ∧
  ∀ page, r = Returned page →
    ∃ c, qdrant w = Some c ∧ page = scroll_page flt limit c.
Proof.
  unfold scroll, same_state. one_call w; intros; simplify_eq; naive_solver.
Qed.

Lemma get_embeddings_inv embedding text w r w' :
  get_embeddings embedding text w = (r, w') →
  same_state w w' ∧ ∀ v, r = Returned v → v = embedding text.
Proof.
  unfold get_embeddings, same_state. one_call w; intros; simplify_eq; naive_solver.
Qed.

Lemma count_quiet w c :
  faults w = [] → qdrant w = Some c →
  count w = (Returned (Z.of_nat (size (points c))), w).
Proof. unfold count. one_call w; intros; by simplify_eq. Qed.

Lemma upsert_quiet pts w c :
  faults w = [] → qdrant w = Some c →
  upsert pts w =
  (Returned tt,
   with_qdrant (Some {| points := foldl (λ m p, <[pt_id p := (pt_vector p, pt_payload p)]> m)
                                    (points c) pts;
                        payload_indexes := payload_indexes c |}) w).
Proof. unfold upsert. one_call w; intros; by simplify_eq. Qed.

Lemma search_quiet cosine qv flt limit w c :
  faults w = [] → qdrant w = Some c →
  search cosine qv flt limit w = (Returned (search_points cosine qv flt limit c), w).
Proof. unfold search. one_call w; intros; by simplify_eq. Qed.

Lemma scroll_quiet flt limit w c :
  faults w = [] → qdrant w = Some c →
  scroll flt limit w = (Returned (scroll_page flt limit c), w).
Proof. unfold scroll. one_call w; intros; by simplify_eq. Qed.

Lemma get_embeddings_quiet embedding text w :
  faults w = [] → get_embeddings embedding text w = (Returned (embedding text), w).
Proof. unfold get_embeddings. one_call w; intros; by simplify_eq. Qed.

Section Program.

Variable embedding : pystr → Vector.
Variable cosine : Vector → Vector → Q.

Local Abbreviation select_notes := (select_notes embedding cosine).
Local Abbreviation list_notes_from_db := (list_notes_from_db embedding cosine).
Local Abbreviation refresh_search_results := (refresh_search_results embedding cosine).
Local Abbreviation add_note_to_db := (add_note_to_db embedding cosine).
Local Abbreviation notes_of := (notes_of embedding cosine).
Local Abbreviation note_added := (note_added embedding).

(** A successful [select_notes] reads the user's notes off the collection
    and changes nothing. *)
Lemma select_notes_inv query w r w' :
  select_notes query w = (r, w') →
  same_state w w' ∧
  ∀ notes, r = Returned notes →
    ∃ u c, ss_user_id (session w) = Some u ∧ qdrant w = Some c ∧
           notes = notes_of query u c.
Proof.
  unfold_select_notes; unfold_notes_of. intros H.
  apply bind_inv in H as [(u & w1 & Hu & H)|(e & Hu & ->)];
    apply session_item_inv in Hu as [-> Hu]; [|done].
  assert (ss_user_id (session w) = Some u) as Eu
    by (destruct (ss_user_id (session w)); by simplify_eq).
  clear Hu.
  assert (∀ r w', (scroll (user_filter u) 10 ≫= λ page, mret page.1) w = (r, w') →
            same_state w w' ∧ ∀ notes, r = Returned notes →
              ∃ c, qdrant w = Some c ∧ notes = (scroll_page (user_filter u) 10 c).1)
    as Hbrowse.
  { clear. intros r w' H.
    apply bind_inv in H as [(page & w1 & Hs & H)|(e & Hs & ->)];
      apply scroll_inv in Hs as [Hs Hpage]; [|done].
    run_unfold. simplify_eq. split; [done|].
    intros notes [= <-]. destruct (Hpage page eq_refl) as (c & ? & ->). eauto. }
  destruct query as [q|]; [destruct (str_truthy q && str_truthy (strip q))|].
  - apply bind_inv in H as [(v & w1 & Hv & H)|(e & Hv & ->)];
      apply get_embeddings_inv in Hv as [[Hq1 Hs1] Hv]; [|done].
    rewrite (Hv v eq_refl) in H.
    apply search_inv in H as [[Hq2 Hs2] H]. split.
    { split; congruence. }
    intros notes ->. destruct (H notes eq_refl) as (c & Hc & ->).
    exists u, c. split; [done|]. split; [congruence|done].
  - apply Hbrowse in H as [? H]. split; [done|].
    intros notes ->. destruct (H notes eq_refl) as (c & ? & ->). eauto.
  - apply Hbrowse in H as [? H]. split; [done|].
    intros notes ->. destruct (H notes eq_refl) as (c & ? & ->). eauto.
Qed.

Lemma select_notes_quiet query w u c :
  faults w = [] → ss_user_id (session w) = Some u → qdrant w = Some c →
  select_notes query w = (Returned (notes_of query u c), w).
Proof.
  intros Hf Hu Hc. unfold_select_notes; unfold_notes_of.
  rewrite (bind_returned _ _ _ _ _ (session_item_Some _ _ _ _ Hu)).
  assert ((scroll (user_filter u) 10 ≫= λ page, mret page.1) w
          = (Returned (scroll_page (user_filter u) 10 c).1, w)) as Hbrowse.
  { by rewrite (bind_returned _ _ _ _ _ (scroll_quiet _ _ _ _ Hf Hc)). }
  destruct query as [q|]; [destruct (str_truthy q && str_truthy (strip q))|]; try done.
  rewrite (bind_returned _ _ _ _ _ (get_embeddings_quiet _ _ _ Hf)).
  by apply search_quiet.
Qed.

Lemma list_notes_from_db_inv query w r w' :
  list_notes_from_db query w = (r, w') →
  same_state w w' ∧
  ∀ res, r = Returned res →
    ∃ u c, ss_user_id (session w) = Some u ∧ qdrant w = Some c ∧
           select_notes query w = (Returned (notes_of query u c), w') ∧
           res = entry_of <$> notes_of query u c.
Proof.
  unfold_list_notes_from_db. intros H.
  apply bind_inv in H as [(notes & w1 & Hn & H)|(e & Hn & ->)];
    pose proof Hn as Hn'; apply select_notes_inv in Hn as [Hst Hn]; [|done].
  run_unfold. simplify_eq. split; [done|].
  intros res [= <-]. destruct (Hn notes eq_refl) as (u & c & ? & ? & ->).
  exists u, c. done.
Qed.

Lemma list_notes_from_db_quiet query w u c :
  faults w = [] → ss_user_id (session w) = Some u → qdrant w = Some c →
  list_notes_from_db query w = (Returned (entry_of <$> notes_of query u c), w).
Proof.
  intros Hf Hu Hc. unfold_list_notes_from_db.
  by rewrite (bind_returned _ _ _ _ _ (select_notes_quiet _ _ _ _ Hf Hu Hc)).
Qed.

Lemma refresh_search_results_inv w r w' :
  refresh_search_results w = (r, w') →
  qdrant w' = qdrant w ∧
  if get_truthy (has_searched (session w)) then
    match r with
    | Returned _ =>
        ∃ q res w2, last_query (session w) = Some q ∧
          list_notes_from_db (Some q) w = (Returned res, w2) ∧
          w' = with_session (set_search_results res (session w)) w2
    | Raised e =>
        session w' = session w ∧
        match last_query (session w) with
        | Some q => list_notes_from_db (Some q) w = (Raised e, w')
        | None => e = KeyError "last_query" ∧ w' = w
        end
    end
  else r = Returned tt ∧ w' = w.
Proof.
  unfold_refresh_search_results. intros H.
  apply bind_inv in H as [(w0 & w1 & Hw & H)|(e & ? & _)]; [|by run_unfold].
  assert (w0 = w ∧ w1 = w) as [-> ->] by (run_unfold; by simplify_eq). clear Hw.
  destruct (get_truthy (has_searched (session w))); [|run_unfold; by simplify_eq].
  apply bind_inv in H as [(q & w1 & Hq & H)|(e & Hq & ->)];
    apply session_item_inv in Hq as [-> Hq].
  - assert (last_query (session w) = Some q) as Eq
      by (destruct (last_query (session w)); by simplify_eq).
    clear Hq. rewrite Eq.
    apply bind_inv in H as [(res & w2 & Hl & H)|(e & Hl & ->)];
      pose proof Hl as Hl'; apply list_notes_from_db_inv in Hl' as [[Hq Hs] _].
    + run_unfold. simplify_eq. split; [exact Hq|]. exists q, res, w2. by rewrite Hs.
    + done.
  - destruct (last_query (session w)); by simplify_eq.
Qed.

(** [add_note_to_db] either fails before anything is written, or writes
    the note and goes on to refresh the search results. *)
Lemma add_note_to_db_inv note_text w r w' :
  add_note_to_db note_text w = (r, w') →
  (∃ e, r = Raised e ∧ same_state w w') ∨
  (∃ u c w1, ss_user_id (session w) = Some u ∧ qdrant w = Some c ∧
             qdrant w1 = Some (note_added note_text u c) ∧
             session w1 = session w ∧
             refresh_search_results w1 = (r, w')).
Proof.
  unfold_add_note_to_db. intros H.
  apply bind_inv in H as [(u & w1 & Hu & H)|(e & Hu & ->)];
    apply session_item_inv in Hu as [-> Hu]; [|left; by exists e].
  assert (ss_user_id (session w) = Some u) as Eu
    by (destruct (ss_user_id (session w)); by simplify_eq).
  clear Hu.
  apply bind_inv in H as [(n & w1 & Hn & H)|(e & Hn & ->)];
    apply count_inv in Hn as [[Hq1 Hs1] Hn]; [|left; by exists e].
  destruct (Hn n eq_refl) as (c & Hc & ->). clear Hn.
  apply bind_inv in H as [(v & w2 & Hv & H)|(e & Hv & ->)];
    apply get_embeddings_inv in Hv as [[Hq2 Hs2] Hv];
    [|left; exists e; split; [done|split; congruence]].
  rewrite (Hv v eq_refl) in H. clear Hv.
  apply bind_inv in H as [([] & w3 & Hup & H)|(e & Hup & ->)];
    apply upsert_inv in Hup as [Hs3 Hup].
  - right. destruct Hup as (c' & Hc' & Hq3).
    assert (c' = c) as -> by congruence.
    exists u, c, w3. split; [done|]. split; [done|].
    split; [exact Hq3|]. split; [congruence|done].
  - left. exists e. split; [done|split; congruence].
Qed.

Lemma add_note_to_db_quiet note_text w u c :
  faults w = [] → ss_user_id (session w) = Some u → qdrant w = Some c →
  add_note_to_db note_text w =
  refresh_search_results (with_qdrant (Some (note_added note_text u c)) w).
Proof.
  intros Hf Hu Hc. unfold_add_note_to_db.
  rewrite (bind_returned _ _ _ _ _ (session_item_Some _ _ _ _ Hu)).
  rewrite (bind_returned _ _ _ _ _ (count_quiet _ _ Hf Hc)).
  rewrite (bind_returned _ _ _ _ _ (get_embeddings_quiet _ _ _ Hf)).
  by rewrite (bind_returned _ _ _ _ _ (upsert_quiet _ _ _ Hf Hc)).
Qed.

Lemma refresh_search_results_quiet w u c :
  faults w = [] → ss_user_id (session w) = Some u → qdrant w = Some c →
  refresh_search_results w =
  if get_truthy (has_searched (session w)) then
    match last_query (session w) with
    | Some q =>
        (Returned tt,
         with_session (set_search_results (entry_of <$> notes_of (Some q) u c)
                         (session w)) w)
    | None => (Raised (KeyError "last_query"), w)
    end
  else (Returned tt, w).
Proof.
  intros Hf Hu Hc. unfold_refresh_search_results.
  rewrite (bind_returned get_world _ w w w eq_refl).
  destruct (get_truthy (has_searched (session w))); [|done].
  destruct (last_query (session w)) as [q|] eqn:Eq.
  - rewrite (bind_returned _ _ _ _ _ (session_item_Some _ _ _ _ Eq)).
    by rewrite (bind_returned _ _ _ _ _ (list_notes_from_db_quiet _ _ _ _ Hf Hu Hc)).
  - apply bind_raised. run_unfold. by rewrite Eq.
Qed.

(** With no fault ahead, and a remembered query if a search has been made,
    [add_note_to_db] returns and the note is written. *)
Lemma add_note_to_db_returns note_text w u c :
  faults w = [] → ss_user_id (session w) = Some u → qdrant w = Some c →
  (get_truthy (has_searched (session w)) = true → is_Some (last_query (session w))) →
  ∃ w', add_note_to_db note_text w = (Returned tt, w') ∧
        qdrant w' = Some (note_added note_text u c).
Proof.
  intros Hf Hu Hc Hq. rewrite (add_note_to_db_quiet _ _ u c Hf Hu Hc).
  rewrite (refresh_search_results_quiet _ u (note_added note_text u c)); [|done..].
  simpl. destruct (get_truthy (has_searched (session w))); [|by eexists].
  destruct (Hq eq_refl) as [q ->]. by eexists.
Qed.

End Program.

(** ** Collections written by sequential adds *)

Lemma fmap_filter_imap {A B C} (f : nat → A → B) (P : B → Prop) (Q : A → Prop)
    `{∀ y, Decision (P y), ∀ x, Decision (Q x)} (g : B → C) (h : A → C) (l : list A) :
  (∀ i x, P (f i x) ↔ Q x) → (∀ i x, g (f i x) = h x) →
  g <$> filter P (imap f l) = h <$> filter Q l.
Proof.
  revert f. induction l as [|x l IH]; intros f HP Hg; [done|].
  rewrite imap_cons, !filter_cons.
  destruct (decide (P (f 0%nat x))) as [Hx|Hx], (decide (Q x)) as [Hx'|Hx'];
    try (exfalso; destruct (HP 0%nat x); tauto).
  - csimpl. rewrite Hg. f_equal. apply IH; intros; [apply HP|apply Hg].
  - apply IH; intros; [apply HP|apply Hg].
Qed.

Section Sequential.

Variable embedding : pystr → Vector.

Local Abbreviation points_after := (points_after embedding).
Local Abbreviation stored_of := (stored_of embedding).

Lemma points_after_snoc adds a :
  points_after (adds ++ [a]) =
  <[Z.of_nat (size (points_after adds)) + 1 :=
      (embedding a.2, {| pl_text := a.2; pl_user_id := a.1 |})]> (points_after adds).
Proof. unfold_points_after. by rewrite foldl_snoc. Qed.

(** After [n] adds the ids in use are exactly [1], ..., [n]. *)
Lemma points_after_dense adds :
  size (points_after adds) = length adds ∧
  ∀ i, is_Some (points_after adds !! i) ↔ 1 ≤ i ≤ Z.of_nat (length adds).
Proof.
  induction adds as [|a adds [IHs IHd]] using rev_ind.
  - split; [apply map_size_empty|].
    intros i. unfold_points_after. simpl.
    rewrite lookup_empty. split; [by intros [? ?]|lia].
  - rewrite points_after_snoc, IHs.
    assert (points_after adds !! (Z.of_nat (length adds) + 1) = None) as Hfresh.
    { apply eq_None_not_Some. rewrite IHd. lia. }
    split.
    + rewrite map_size_insert_None by done. rewrite length_app. simpl. lia.
    + intros i. rewrite lookup_insert_is_Some, IHd, length_app. simpl. lia.
Qed.

Lemma map_to_list_points_after adds :
  map_to_list (points_after adds) ≡ₚ imap stored_of adds.
Proof.
  induction adds as [|a adds IH] using rev_ind.
  - unfold_points_after. simpl. by rewrite map_to_list_empty.
  - destruct (points_after_dense adds) as [Hs Hd].
    rewrite points_after_snoc, Hs, imap_app. simpl.
    rewrite map_to_list_insert.
    + rewrite IH. rewrite Nat.add_0_r. unfold stored_of at 3.
      by rewrite (Permutation_app_comm (imap _ _)).
    + apply eq_None_not_Some. rewrite Hd. lia.
Qed.

Lemma imap_stored_of_sorted adds : StronglySorted by_id (imap stored_of adds).
Proof.
  induction adds as [|a adds IH] using rev_ind; [constructor|].
  rewrite imap_app. apply StronglySorted_app_2; [|done|].
  - intros x1 x2 Hx1 Hx2.
    apply elem_of_lookup_imap in Hx1 as (i & a1 & -> & Hi).
    apply lookup_lt_Some in Hi.
    simpl in Hx2. apply list_elem_of_singleton in Hx2 as ->.
    unfold by_id, stored_of. simpl. lia.
  - simpl. repeat constructor.
Qed.

(** The store walks such a collection in the order the notes were added. *)
Lemma ordered_points_after c adds :
  points c = points_after adds → ordered_points c = imap stored_of adds.
Proof.
  intros Hc. apply (StronglySorted_unique_strong by_id).
  - intros [i1 b1] [i2 b2] H1 H2. unfold by_id. simpl. intros ? ?.
    assert (i1 = i2) as -> by lia.
    apply elem_of_ordered_points in H1.
    apply elem_of_lookup_imap in H2 as (k & a & Heq & Hk).
    unfold stored_of in Heq. simplify_eq.
    assert ((Z.of_nat k + 1, (embedding a.2, {| pl_text := a.2; pl_user_id := a.1 |}))
            ∈ ordered_points c) as H2.
    { unfold ordered_points. rewrite merge_sort_Permutation, Hc,
        map_to_list_points_after.
      by apply (elem_of_lookup_imap_2 stored_of). }
    apply elem_of_ordered_points in H2. congruence.
  - apply ordered_points_sorted.
  - apply imap_stored_of_sorted.
  - unfold ordered_points. rewrite merge_sort_Permutation, Hc.
    apply map_to_list_points_after.
Qed.

End Sequential.

(** ** The two modes of a listing *)

Lemma query_given_non_blank q : query_given (Some q) = true ↔ non_blank q.
Proof.
  unfold query_given, non_blank. rewrite andb_true_iff, !str_truthy_true.
  rewrite strip_nil_iff. split.
  - intros [_ Hq]. apply not_Forall_Exists in Hq; [|apply _].
    eapply Exists_impl; [exact Hq|]. simpl. intros c. by destruct (isspace c).
  - intros Hq. split.
    + intros ->. by apply Exists_nil in Hq.
    + intros Hall. apply Exists_exists in Hq as (c & Hc & Hsp).
      rewrite Forall_forall in Hall. specialize (Hall c Hc). congruence.
Qed.

Lemma query_given_blank q : blank q → query_given (Some q) = false.
Proof.
  intros Hq. apply not_true_iff_false. rewrite query_given_non_blank.
  unfold non_blank, blank in *. intros (c & Hc & Hsp)%Exists_exists.
  rewrite Forall_forall in Hq. specialize (Hq c Hc). congruence.
Qed.

Lemma elem_of_scroll_page flt limit c n :
  n ∈ (scroll_page flt limit c).1 →
  ∃ i v pl, n = Record_ i pl ∧
            points c !! i = Some (v, pl) ∧ filter_matches flt pl = true.
Proof.
  unfold scroll_page. simpl. intros Hn.
  apply list_elem_of_fmap in Hn as ([i [v pl]] & -> & Hp).
  apply (subseteq_take limit) in Hp.
  apply elem_of_filtered_points in Hp as [? ?]. simpl. eauto 10.
Qed.

Section Listing.

Variable embedding : pystr → Vector.
Variable cosine : Vector → Vector → Q.

Local Abbreviation notes_of := (notes_of embedding cosine).

Lemma notes_of_query q u c :
  query_given (Some q) = true →
  notes_of (Some q) u c = search_points cosine (embedding q) (user_filter u) 10 c.
Proof. unfold_notes_of; unfold query_given. by intros ->. Qed.

Lemma notes_of_browse query u c :
  query_given query = false →
  notes_of query u c = (scroll_page (user_filter u) 10 c).1.
Proof.
  unfold_notes_of; unfold query_given. destruct query; [|done]. by intros ->.
Qed.

(** Whatever the mode, a listing holds points of the collection that
    belong to the user it was made for. *)
Lemma elem_of_notes_of query u c n :
  n ∈ notes_of query u c →
  ∃ v, points c !! hit_id n = Some (v, hit_payload n) ∧
       pl_user_id (hit_payload n) = u.
Proof.
  destruct (query_given query) eqn:Hmode.
  - destruct query as [q|]; [|done]. rewrite notes_of_query by done.
    intros (i & v & pl & -> & Hi & Hf)%elem_of_search_points.
    apply filter_matches_user in Hf. simpl. eauto.
  - rewrite notes_of_browse by done.
    intros (i & v & pl & -> & Hi & Hf)%elem_of_scroll_page.
    apply filter_matches_user in Hf. simpl. eauto.
Qed.

End Listing.

(** ** The note store *)

Section Claims.

Variable embedding : pystr → Vector.
Variable cosine : Vector → Vector → Q.

Local Abbreviation select_notes := (select_notes embedding cosine).
Local Abbreviation list_notes_from_db := (list_notes_from_db embedding cosine).
Local Abbreviation refresh_search_results := (refresh_search_results embedding cosine).
Local Abbreviation add_note_to_db := (add_note_to_db embedding cosine).
Local Abbreviation notes_of := (notes_of embedding cosine).
Local Abbreviation note_added := (note_added embedding).

(** A call of [add_note_to_db] that returns has written its note, and
    left the user of the session as it was. *)
Lemma add_note_to_db_written note_text w w' :
  add_note_to_db note_text w = (Returned tt, w') →
  ∃ u c, ss_user_id (session w) = Some u ∧ qdrant w = Some c ∧
         qdrant w' = Some (note_added note_text u c) ∧
         ss_user_id (session w') = Some u.
Proof.
  intros H. apply add_note_to_db_inv in H as [(e & ? & _)|(u & c & w1 & Hu & Hc & Hc1 & Hs1 & H)];
    [done|].
  apply refresh_search_results_inv in H as [Hq H].
  exists u, c. split; [done|]. split; [done|]. split; [congruence|].
  destruct (get_truthy (has_searched (session w1))).
  - destruct H as (q & res & w2 & _ & Hl & ->).
    apply list_notes_from_db_inv in Hl as [[_ Hs2] _]. simpl. congruence.
  - destruct H as [_ ->]. congruence.
Qed.

(** C2.  [add_note_to_db] reads the number of points of the whole
    collection, whoever owns them, and upserts one point under that
    number plus one: its vector is the embedding of the text, its payload
    the text and the user of the session.  The point is inserted, or
    replaces the point that had this id; every other id is left alone. *)
Theorem add_note_to_db_upserts_at_count_plus_one note_text w w' :
  add_note_to_db note_text w = (Returned tt, w') →
  ∃ u c c',
    ss_user_id (session w) = Some u ∧ qdrant w = Some c ∧ qdrant w' = Some c' ∧
    (let i := Z.of_nat (size (points c)) + 1 in
     let p := (embedding note_text, {| pl_text := note_text; pl_user_id := u |}) in
     points c' = <[i := p]> (points c) ∧
     points c' !! i = Some p ∧
     ∀ j, j ≠ i → points c' !! j = points c !! j).
Proof.
  intros H. apply add_note_to_db_written in H as (u & c & Hu & Hc & Hc' & _).
  exists u, c, (note_added note_text u c).
  split; [done|]. split; [done|]. split; [done|]. simpl.
  split; [done|]. split; [apply lookup_insert_eq|].
  intros j Hj. by apply lookup_insert_ne.
Qed.

(** C1.  A note added under [u1] is a point of the collection owned by
    [u1]; as long as it is there, no listing made for another user [u2],
    with or without a query, selects it: the listing is made of points
    whose [user_id] is [u2]. *)
Theorem notes_of_one_user_hidden_from_another
    note_text u1 u2 query w w1 w2 w2' res :
  ss_user_id (session w) = Some u1 →
  add_note_to_db note_text w = (Returned tt, w1) →
  u2 ≠ u1 →
  ss_user_id (session w2) = Some u2 →
  holds_note w2 (next_id w) {| pl_text := note_text; pl_user_id := u1 |} →
  list_notes_from_db query w2 = (Returned res, w2') →
  holds_note w1 (next_id w) {| pl_text := note_text; pl_user_id := u1 |} ∧
  ∃ notes,
    select_notes query w2 = (Returned notes, w2') ∧
    res = entry_of <$> notes ∧
    (next_id w ∉ hit_id <$> notes) ∧
    Forall (λ n, pl_user_id (hit_payload n) = u2) notes.
Proof.
  intros Hu1 Hadd Hne Hu2 (c2 & v & Hc2 & Hi) Hlist.
  apply add_note_to_db_written in Hadd as (u & c & Hu & Hc & Hc1 & _).
  assert (u = u1) as -> by congruence.
  split.
  { exists (note_added note_text u1 c), (embedding note_text).
    split; [done|]. unfold next_id. rewrite Hc. apply lookup_insert_eq. }
  apply list_notes_from_db_inv in Hlist as [_ Hlist].
  destruct (Hlist res eq_refl) as (u & c' & Hu' & Hc' & Hsel & ->).
  assert (u = u2) as -> by congruence.
  assert (c' = c2) as -> by congruence.
  exists (notes_of query u2 c2). split; [done|]. split; [done|]. split.
  - intros (n & Hn & Hin)%list_elem_of_fmap.
    apply elem_of_notes_of in Hin as (v' & Hpt & Hown).
    rewrite <- Hn, Hi in Hpt.
    assert (hit_payload n = {| pl_text := note_text; pl_user_id := u1 |}) as Hpl
      by congruence.
    rewrite Hpl in Hown. simpl in Hown. congruence.
  - apply Forall_forall. intros n Hin.
    by apply elem_of_notes_of in Hin as (v' & _ & Hown).
Qed.

(** C3.  With a query that is not blank, [list_notes_from_db] returns at
    most 10 entries, in order of non-increasing score; each entry carries
    its score, the similarity between the embedding of the query and the
    vector of a point of the collection whose [user_id] is the user of the
    session, and the text of that point. *)
Theorem list_notes_from_db_ranks_the_notes_of_the_user u q w res w' :
  ss_user_id (session w) = Some u →
  non_blank q →
  list_notes_from_db (Some q) w = (Returned res, w') →
  (length res ≤ 10)%nat ∧
  StronglySorted entry_outranks res ∧
  Forall (λ e, is_Some (e_score e)) res ∧
  ∃ c, qdrant w = Some c ∧
    Forall (λ e, ∃ i v pl,
              points c !! i = Some (v, pl) ∧ pl_user_id pl = u ∧
              e = {| e_text := pl_text pl;
                     e_score := Some (cosine (embedding q) v) |}) res.
Proof.
  intros Hu Hq Hlist. apply query_given_non_blank in Hq.
  apply list_notes_from_db_inv in Hlist as [_ Hlist].
  destruct (Hlist res eq_refl) as (u' & c & Hu' & Hc & _ & ->).
  assert (u' = u) as -> by congruence.
  rewrite notes_of_query by done.
  split; [rewrite length_fmap; apply length_search_points|].
  split.
  { apply (StronglySorted_fmap _ outranks); [|apply search_points_ranked].
    intros [] []; done. }
  assert (Forall (λ e, ∃ i v pl,
              points c !! i = Some (v, pl) ∧ pl_user_id pl = u ∧
              e = {| e_text := pl_text pl;
                     e_score := Some (cosine (embedding q) v) |})
            (entry_of <$> search_points cosine (embedding q) (user_filter u) 10 c))
    as Hall.
  { apply Forall_fmap, Forall_forall. intros n Hn.
    apply elem_of_search_points in Hn as (i & v & pl & -> & Hi & Hf).
    apply filter_matches_user in Hf. exists i, v, pl. done. }
  split; [|by exists c].
  eapply Forall_impl; [exact Hall|].
  intros e (i & v & pl & _ & _ & ->). by eexists.
Qed.

(** C4.  Without a query, or with a blank one, [list_notes_from_db]
    returns the first 10 points whose [user_id] is the user of the
    session, in the order the store walks its points (ascending id), and
    no entry carries a score: the score is [None], which no score [Some s]
    equals, [Some 0] included.  In a collection written by one add after
    the other, that order is the order the notes were added in. *)
Theorem list_notes_from_db_browses_in_store_order u query w res w' :
  ss_user_id (session w) = Some u →
  query = None ∨ (∃ q, query = Some q ∧ blank q) →
  list_notes_from_db query w = (Returned res, w') →
  ∃ c, qdrant w = Some c ∧
    res = (λ p, {| e_text := pl_text p.2.2; e_score := None |})
          <$> take 10 (filter (λ p, pl_user_id p.2.2 = u) (ordered_points c)) ∧
    StronglySorted by_id (ordered_points c) ∧
    (length res ≤ 10)%nat ∧
    Forall (λ e, e_score e = None ∧ ∀ s : Q, e_score e ≠ Some s) res ∧
    ∀ adds, points c = points_after embedding adds →
      res = take 10 ((λ a, {| e_text := a.2; e_score := None |})
                     <$> filter (λ a, a.1 = u) adds).
Proof.
  intros Hu Hmode Hlist.
  assert (query_given query = false) as Hbrowse.
  { destruct Hmode as [->|(q & -> & Hq)]; [done|by apply query_given_blank]. }
  apply list_notes_from_db_inv in Hlist as [_ Hlist].
  destruct (Hlist res eq_refl) as (u' & c & Hu' & Hc & _ & ->).
  assert (u' = u) as -> by congruence.
  rewrite notes_of_browse by done.
  assert (filtered_points (user_filter u) c
          = filter (λ p, pl_user_id p.2.2 = u) (ordered_points c)) as Hflt.
  { unfold filtered_points. apply list_filter_iff. intros [i [v pl]]. simpl.
    rewrite Is_true_true. apply filter_matches_user. }
  assert (entry_of <$> (scroll_page (user_filter u) 10 c).1
          = (λ p, {| e_text := pl_text p.2.2; e_score := None |})
            <$> take 10 (filter (λ p, pl_user_id p.2.2 = u) (ordered_points c)))
    as Hres.
  { unfold scroll_page. simpl. rewrite Hflt, <- list_fmap_compose. done. }
  exists c. split; [done|]. split; [done|].
  split; [apply ordered_points_sorted|].
  split; [rewrite Hres, length_fmap, length_take; lia|].
  split.
  { rewrite Hres. apply Forall_fmap, Forall_forall. intros p _. simpl. done. }
  intros adds Hadds. rewrite Hres.
  rewrite (ordered_points_after embedding c adds Hadds).
  rewrite !fmap_take. f_equal.
  apply fmap_filter_imap; done.
Qed.

(** C5, as the code has it.  After a call of [add_note_to_db] that
    returned, the note is stored under the id the call took.  A listing
    without a query made for the same user selects that point exactly
    when fewer than 10 notes of the user are stored under a lower id, and
    then it holds an entry with the text of the note: a listing stops at
    the first 10 notes of the user in the order of the ids.  This is so
    whenever the user owns at most 10 notes by then.  When no note of the
    user has a higher id than the new one, as in a collection that only
    this program has written, the point is selected exactly when the user
    owns at most 10 notes by then. *)
Theorem added_note_is_listed_within_the_first_ten
    note_text u query w w1 res w2 :
  ss_user_id (session w) = Some u →
  add_note_to_db note_text w = (Returned tt, w1) →
  query = None ∨ (∃ q, query = Some q ∧ blank q) →
  list_notes_from_db query w1 = (Returned res, w2) →
  holds_note w1 (next_id w) {| pl_text := note_text; pl_user_id := u |} ∧
  ((owned u w1 ≤ 10)%nat → {| e_text := note_text; e_score := None |} ∈ res) ∧
  ∃ notes,
    select_notes query w1 = (Returned notes, w2) ∧
    res = entry_of <$> notes ∧
    (next_id w ∈ hit_id <$> notes ↔ (owned_below u (next_id w) w1 < 10)%nat) ∧
    (next_id w ∈ hit_id <$> notes →
     {| e_text := note_text; e_score := None |} ∈ res) ∧
    ((∀ i pl, holds_note w1 i pl → pl_user_id pl = u → i ≤ next_id w) →
     next_id w ∈ hit_id <$> notes ↔ (owned u w1 ≤ 10)%nat).
Proof.
  intros Hu Hadd Hmode Hlist.
  assert (query_given query = false) as Hbrowse.
  { destruct Hmode as [->|(q & -> & Hq)]; [done|by apply query_given_blank]. }
  apply add_note_to_db_written in Hadd as (u' & c & Hu' & Hc & Hc1 & Hu1).
  assert (u' = u) as -> by congruence.
  set (n := next_id w).
  set (pl := {| pl_text := note_text; pl_user_id := u |}).
  set (c1 := note_added note_text u c) in *.
  assert (points c1 !! n = Some (embedding note_text, pl)) as Hpt.
  { unfold n, next_id. rewrite Hc. apply lookup_insert_eq. }
  set (l := filtered_points (user_filter u) c1).
  assert ((n, (embedding note_text, pl)) ∈ l) as Hin.
  { apply elem_of_filtered_points. split; [done|]. by apply filter_matches_user. }
  apply list_notes_from_db_inv in Hlist as [_ Hlist].
  destruct (Hlist res eq_refl) as (u' & c' & Hu1' & Hc1' & Hsel & ->).
  assert (u' = u) as -> by congruence.
  assert (c' = c1) as -> by congruence.
  rewrite notes_of_browse in * by done.
  assert (owned u w1 = length l) as Hown by (unfold owned; by rewrite Hc1).
  assert (owned_below u n w1 = length (filter (λ p, p.1 < n) l)) as Hbelow
    by (unfold owned_below; by rewrite Hc1).
  assert (n ∈ hit_id <$> (scroll_page (user_filter u) 10 c1).1
          ↔ (owned_below u n w1 < 10)%nat) as Hiff.
  { rewrite hit_id_scroll_page, Hbelow.
    apply (elem_of_take_by_id l 10 (n, (embedding note_text, pl)));
      [apply filtered_points_sorted|apply filtered_points_NoDup|done]. }
  assert (n ∈ hit_id <$> (scroll_page (user_filter u) 10 c1).1 →
          {| e_text := note_text; e_score := None |}
            ∈ entry_of <$> (scroll_page (user_filter u) 10 c1).1) as Hentry.
  { intros (h & Hid & Hh)%list_elem_of_fmap.
    apply (list_elem_of_fmap_2' _ _ h); [done|].
    apply elem_of_scroll_page in Hh as (i & v & pl' & -> & Hi & _).
    simpl in Hid. subst i. rewrite Hpt in Hi. injection Hi as _ <-. done. }
  assert ((length (filter (λ p : Z * (Vector * Payload), (p.1 < n)%Z) l) < length l)%nat) as Hlt.
  { apply (length_filter_lt _ _ (n, (embedding note_text, pl))); [done|simpl; lia]. }
  split; [by exists c1, (embedding note_text)|].
  split.
  { intros Hle. apply Hentry, Hiff. lia. }
  eexists. split; [done|]. split; [done|]. split; [done|]. split; [done|].
  intros Htop. rewrite Hiff, Hbelow, Hown.
  pose proof (length_filter_below_top l (n, (embedding note_text, pl))
                (filtered_points_NoDup _ _) Hin) as Hlen.
  simpl in Hlen. rewrite <- Hlen; [lia|].
  intros [i [v pl']] [Hi Hf]%elem_of_filtered_points. simpl.
  apply (Htop i pl'); [by exists c1, v|by apply filter_matches_user].
Qed.

(** C7.  When a search has been made in the session, a call of
    [add_note_to_db] that returns leaves in [search_results] what
    [list_notes_from_db] gives for the remembered query on the collection
    as it is now, the new note included: making the listing again gives
    the same entries.  The remembered query and the flag are untouched. *)
Theorem add_note_to_db_refreshes_search_results note_text w w' :
  get_truthy (has_searched (session w)) = true →
  add_note_to_db note_text w = (Returned tt, w') →
  ∃ q res,
    last_query (session w) = Some q ∧
    last_query (session w') = Some q ∧
    has_searched (session w') = has_searched (session w) ∧
    search_results (session w') = Some res ∧
    list_notes_from_db (Some q) (with_faults [] w')
      = (Returned res, with_faults [] w') ∧
    ∀ fs res' w'',
      list_notes_from_db (Some q) (with_faults fs w') = (Returned res', w'') →
      res' = res.
Proof.
  intros Hflag H.
  apply add_note_to_db_inv in H as [(e & ? & _)|(u & c & w1 & Hu & Hc & Hc1 & Hs1 & H)];
    [done|].
  apply refresh_search_results_inv in H as [Hq H].
  rewrite Hs1, Hflag in H. destruct H as (q & res & w2 & Hlq & Hl & ->).
  apply list_notes_from_db_inv in Hl as [[Hq2 Hs2] Hl].
  destruct (Hl res eq_refl) as (u' & c' & Hu' & Hc' & _ & Hres).
  assert (u' = u) as -> by congruence.
  assert (c' = note_added note_text u c) as -> by congruence.
  exists q, res. rewrite Hs1 in *. simpl.
  split; [done|]. split; [done|]. split; [done|]. split; [done|].
  assert (∀ fs, ss_user_id (session (with_faults fs
              (with_session (set_search_results res (session w)) w2))) = Some u)
    as Hu2 by done.
  assert (∀ fs, qdrant (with_faults fs
              (with_session (set_search_results res (session w)) w2))
            = Some (note_added note_text u c)) as Hc2
    by (intros; simpl; congruence).
  split.
  - rewrite (list_notes_from_db_quiet embedding cosine (Some q)
               (with_faults [] (with_session (set_search_results res (session w)) w2))
               u (note_added note_text u c) eq_refl (Hu2 []) (Hc2 [])).
    by rewrite <- Hres.
  - intros fs res' w'' Hl'.
    apply list_notes_from_db_inv in Hl' as [_ Hl'].
    destruct (Hl' res' eq_refl) as (u' & c' & Hu'' & Hc'' & _ & ->).
    rewrite Hu2 in Hu''. rewrite Hc2 in Hc''. simplify_eq. done.
Qed.

End Claims.

(** ** Bootstrap of the collection *)

(** C6, as the code has it.  [assure_db_collection_exists] swallows every
    failure of the creation of the index, whatever its kind: once the check
    and the creation of the collection went through, it returns, whether
    [create_payload_index] returned or raised.  What it raises is raised by
    the check or by the creation of the collection. *)
Theorem assure_db_collection_exists_swallows_index_failures w r w' :
  assure_db_collection_exists w = (r, w') →
  (∀ e, r = Raised e →
     collection_exists w = (Raised e, w') ∨
     ∃ w1, collection_exists w = (Returned false, w1) ∧
           create_collection w1 = (Raised e, w')) ∧
  (∀ b w1 w2,
     collection_exists w = (Returned b, w1) →
     (if negb b then create_collection else mret tt) w1 = (Returned tt, w2) →
     r = Returned tt ∧
     ∃ r2, create_payload_index "user_id" "keyword" w2 = (r2, w')).
Proof.
  unfold assure_db_collection_exists. intros H.
  apply bind_inv in H as [(b & w1 & Hex & H)|(e & Hex & ->)].
  - apply bind_inv in H as [([] & w2 & Hcr & H)|(e & Hcr & ->)].
    + assert (r = Returned tt ∧
              ∃ r2, create_payload_index "user_id" "keyword" w2 = (r2, w')) as [-> Hidx].
      { unfold try_except in H.
        destruct (create_payload_index "user_id" "keyword" w2) as [[[]|e] w3] eqn:Hidx.
        - simplify_eq. eauto.
        - unfold mret, M_ret in H. simplify_eq. eauto. }
      split; [done|]. intros b' w1' w2' Hex' Hcr'.
      rewrite Hex in Hex'. simplify_eq. rewrite Hcr in Hcr'. by simplify_eq.
    + split.
      * intros e' [= <-]. right. exists w1.
        destruct b; [by unfold mret, M_ret in Hcr|]. done.
      * intros b' w1' w2' Hex' Hcr'.
        rewrite Hex in Hex'. simplify_eq. rewrite Hcr in Hcr'. by simplify_eq.
  - split.
    + intros e' [= <-]. by left.
    + intros b w1 w2 Hex'. rewrite Hex in Hex'. by simplify_eq.
Qed.

(** ** Failures of the services *)

Lemma calls_passed_refl w : calls_passed w w.
Proof. by exists 0%nat. Qed.

Lemma calls_passed_trans w1 w2 w3 :
  calls_passed w1 w2 → calls_passed w2 w3 → calls_passed w1 w3.
Proof.
  intros [n1 H1] [n2 H2]. exists (n1 + n2)%nat.
  by rewrite H1, H2, replicate_add, app_assoc.
Qed.

Lemma calls_passed_failed code w1 w2 w3 :
  calls_passed w1 w2 → call_failed code w2 w3 → call_failed code w1 w3.
Proof.
  intros [n1 H1] [n2 H2]. exists (n1 + n2)%nat.
  by rewrite H1, H2, replicate_add, app_assoc.
Qed.

Lemma calls_passed_same_faults w w' : faults w' = faults w → calls_passed w w'.
Proof. intros H. exists 0%nat. by rewrite H. Qed.

Lemma unmodified_after {A} w1 w2 (r : outcome A) w3 :
  calls_passed w1 w2 → unmodified w2 r w3 → unmodified w1 r w3.
Proof.
  unfold unmodified. intros H12.
  destruct r as [a|[k|who code| |]]; eauto using calls_passed_trans.
  intros [H|(? & ? & H)]; [left|right]; eauto using calls_passed_trans, calls_passed_failed.
Qed.

Lemma propagates_bind {A B} (m : M A) (f : A → M B) :
  propagates m → (∀ a, propagates (f a)) → propagates (m ≫= f).
Proof.
  intros Hm Hf w r w' H.
  apply bind_inv in H as [(a & w1 & H1 & H2)|(e & H1 & ->)].
  - apply Hm in H1. apply Hf in H2. by eapply unmodified_after.
  - apply Hm in H1. exact H1.
Qed.

Lemma propagates_ret {A} (a : A) : propagates (mret a).
Proof. intros w r w' [= <- <-]. apply calls_passed_refl. Qed.

Lemma propagates_remote who : propagates (remote who).
Proof.
  intros w r w'. unfold remote.
  destruct w as [q s [|[code|] fs]]; simpl; intros [= <- <-]; simpl.
  - apply calls_passed_refl.
  - left. by exists 0%nat.
  - by exists 1%nat.
Qed.

Lemma propagates_session_item {A} key (field : SessionState → option A) :
  propagates (session_item key field).
Proof.
  intros w r w' [-> H]%session_item_inv.
  destruct (field (session w)); subst; apply calls_passed_refl.
Qed.

Lemma propagates_session_update f : propagates (session_update f).
Proof. intros w r w' H. run_unfold. simplify_eq. by apply calls_passed_same_faults. Qed.

Lemma propagates_the_collection : propagates the_collection.
Proof.
  intros w r w' H. run_unfold. destruct (qdrant w); simplify_eq.
  - apply calls_passed_refl.
  - right. split; [done|]. split; [by left|]. apply calls_passed_refl.
Qed.

Lemma propagates_put_collection c : propagates (put_collection c).
Proof. intros w r w' H. run_unfold. simplify_eq. by apply calls_passed_same_faults. Qed.

Lemma propagates_count : propagates count.
Proof.
  unfold count. apply propagates_bind; [apply propagates_remote|intros _].
  apply propagates_bind; [apply propagates_the_collection|intros c].
  apply propagates_ret.
Qed.

Lemma propagates_upsert pts : propagates (upsert pts).
Proof.
  unfold upsert. apply propagates_bind; [apply propagates_remote|intros _].
  apply propagates_bind; [apply propagates_the_collection|intros c].
  apply propagates_put_collection.
Qed.

Lemma propagates_search cosine qv flt limit : propagates (search cosine qv flt limit).
Proof.
  unfold search. apply propagates_bind; [apply propagates_remote|intros _].
  apply propagates_bind; [apply propagates_the_collection|intros c].
  apply propagates_ret.
Qed.

Lemma propagates_scroll flt limit : propagates (scroll flt limit).
Proof.
  unfold scroll. apply propagates_bind; [apply propagates_remote|intros _].
  apply propagates_bind; [apply propagates_the_collection|intros c].
  apply propagates_ret.
Qed.

Lemma propagates_get_embeddings embedding text :
  propagates (get_embeddings embedding text).
Proof.
  unfold get_embeddings. apply propagates_bind; [apply propagates_remote|intros _].
  apply propagates_ret.
Qed.

Lemma propagates_transcribe_audio transcription audio_bytes :
  propagates (transcribe_audio transcription audio_bytes).
Proof.
  unfold transcribe_audio. apply propagates_bind; [apply propagates_remote|intros _].
  apply propagates_ret.
Qed.

Lemma propagates_get_world {B} (f : World → M B) :
  (∀ w, propagates (f w)) → propagates (get_world ≫= f).
Proof. intros Hf w r w' H. by apply (Hf w). Qed.

Section Failures.

Variable embedding : pystr → Vector.
Variable cosine : Vector → Vector → Q.
Variable transcription : list Z → pystr.

Local Abbreviation list_notes_from_db := (list_notes_from_db embedding cosine).
Local Abbreviation refresh_search_results := (refresh_search_results embedding cosine).
Local Abbreviation add_note_to_db := (add_note_to_db embedding cosine).
Local Abbreviation note_added := (note_added embedding).

Lemma propagates_list_notes_from_db query : propagates (list_notes_from_db query).
Proof.
  unfold_list_notes_from_db; unfold select_notes.
  apply propagates_bind; [|intros; apply propagates_ret].
  apply propagates_bind; [apply propagates_session_item|intros u].
  assert (propagates (scroll (user_filter u) 10 ≫= λ page, mret page.1)) as Hbrowse.
  { apply propagates_bind; [apply propagates_scroll|intros; apply propagates_ret]. }
  destruct query as [q|]; [destruct (str_truthy q && str_truthy (strip q))|]; try done.
  apply propagates_bind; [apply propagates_get_embeddings|intros v].
  apply propagates_search.
Qed.

Lemma propagates_refresh_search_results : propagates refresh_search_results.
Proof.
  unfold_refresh_search_results. apply propagates_get_world. intros w.
  destruct (get_truthy (has_searched (session w))); [|apply propagates_ret].
  apply propagates_bind; [apply propagates_session_item|intros q].
  apply propagates_bind; [apply propagates_list_notes_from_db|intros res].
  apply propagates_session_update.
Qed.

Lemma propagates_add_note_to_db note_text : propagates (add_note_to_db note_text).
Proof.
  unfold_add_note_to_db.
  apply propagates_bind; [apply propagates_session_item|intros u].
  apply propagates_bind; [apply propagates_count|intros n].
  apply propagates_bind; [apply propagates_get_embeddings|intros v].
  apply propagates_bind; [apply propagates_upsert|intros _].
  apply propagates_refresh_search_results.
Qed.

(** C8, as the code has it.  No failure of a service is caught or retried
    in [add_note_to_db], [list_notes_from_db], [get_embeddings] and
    [transcribe_audio]: what the run raises is the failure of the last
    call it made.  When [add_note_to_db] raises, the session is as it
    was, and the collection is as it was unless the failure came from the
    refresh of the search results, which runs once the note is written.
    In particular a failure of the embedding of the text of the note
    leaves the collection as it was: no point is upserted. *)
Theorem failures_of_add_note_to_db_reach_the_caller note_text w r w' :
  add_note_to_db note_text w = (r, w') →
  unmodified w r w' ∧
  (∀ e, r = Raised e →
     session w' = session w ∧
     (qdrant w' = qdrant w ∨
      ∃ u c w1, ss_user_id (session w) = Some u ∧ qdrant w = Some c ∧
                qdrant w1 = Some (note_added note_text u c) ∧
                qdrant w' = qdrant w1 ∧
                refresh_search_results w1 = (Raised e, w'))) ∧
  (∀ n w1 e w2,
     is_Some (ss_user_id (session w)) →
     count w = (Returned n, w1) →
     get_embeddings embedding note_text w1 = (Raised e, w2) →
     r = Raised e ∧ w' = w2 ∧ qdrant w' = qdrant w) ∧
  (∀ query, propagates (list_notes_from_db query)) ∧
  (∀ text, propagates (get_embeddings embedding text)) ∧
  (∀ audio_bytes, propagates (transcribe_audio transcription audio_bytes)).
Proof.
  intros H. split; [by apply propagates_add_note_to_db in H|].
  split; [|split].
  - intros e ->.
    apply add_note_to_db_inv in H as [(e' & _ & Hq & Hs)|(u & c & w1 & Hu & Hc & Hc1 & Hs1 & H)].
    { split; [done|by left]. }
    pose proof H as Hr.
    apply refresh_search_results_inv in H as [Hq H].
    destruct (get_truthy (has_searched (session w1))); [|by destruct H].
    destruct H as [Hs _]. split; [congruence|].
    right. exists u, c, w1. done.
  - intros n w1 e w2 [u Hu] Hn Hv.
    unfold_add_note_to_db.
    rewrite (bind_returned _ _ _ _ _ (session_item_Some _ _ _ _ Hu)) in H.
    rewrite (bind_returned _ _ _ _ _ Hn) in H.
    rewrite (bind_raised _ _ _ _ _ Hv) in H. simplify_eq.
    split; [done|]. split; [done|].
    apply count_inv in Hn as [[Hq1 _] _].
    apply get_embeddings_inv in Hv as [[Hq2 _] _]. congruence.
  - split; [apply propagates_list_notes_from_db|].
    split; [apply propagates_get_embeddings|apply propagates_transcribe_audio].
Qed.

End Failures.

(** ** Ids under sequential runs *)

Section Ids.

Variable embedding : pystr → Vector.
Variable cosine : Vector → Vector → Q.

Local Abbreviation add_note_to_db := (add_note_to_db embedding cosine).
Local Abbreviation reaches := (reaches embedding cosine).
Local Abbreviation points_after := (points_after embedding).
Local Abbreviation note_added := (note_added embedding).

Lemma note_added_points_after note_text u c adds :
  points c = points_after adds →
  points (note_added note_text u c) = points_after (adds ++ [(u, note_text)]).
Proof. intros Hc. rewrite points_after_snoc. simpl. by rewrite Hc. Qed.

(** On a collection that is there, [assure_db_collection_exists] leaves
    the points alone. *)
Lemma assure_db_collection_exists_points w r w' c :
  assure_db_collection_exists w = (r, w') → qdrant w = Some c →
  ∃ c', qdrant w' = Some c' ∧ points c' = points c.
Proof.
  unfold assure_db_collection_exists, collection_exists, create_payload_index.
  intros H Hc. destruct w as [q s fs]. simpl in Hc. subst q.
  run_unfold. unfold remote in H.
  destruct fs as [|[code1|] [|[code2|] fs]]; simpl in H; simplify_eq; eauto.
Qed.

(** Along a sequential run from an empty collection, the collection is
    the one the adds that wrote their note build one after the other. *)
Lemma reaches_points_after w0 c0 n w :
  qdrant w0 = Some c0 → points c0 = ∅ → reaches w0 n w →
  ∃ c adds, qdrant w = Some c ∧ points c = points_after adds ∧ length adds = n.
Proof.
  intros Hc0 Hempty Hrun.
  induction Hrun as [|n w t w' _ IH Hadd|n w t e w' _ IH Hadd Hsame
                     |n w t e w' _ IH Hadd Hdiff|n w q r w' _ IH Hlist
                     |n w r w' _ IH Hassure|n w s _ IH|n w fs _ IH].
  - exists c0, []. done.
  - destruct IH as (c & adds & Hc & Hpts & Hlen).
    apply add_note_to_db_written in Hadd as (u & c' & _ & Hc' & Hc1 & _).
    assert (c' = c) as -> by congruence.
    exists (note_added t u c), (adds ++ [(u, t)]). split; [done|].
    split; [by apply note_added_points_after|].
    rewrite length_app. simpl. lia.
  - destruct IH as (c & adds & Hc & Hpts & Hlen).
    exists c, adds. split; [congruence|done].
  - destruct IH as (c & adds & Hc & Hpts & Hlen).
    apply add_note_to_db_inv in Hadd
      as [(e' & _ & Hq & _)|(u & c' & w1 & _ & Hc' & Hc1 & _ & Hr)]; [done|].
    apply refresh_search_results_inv in Hr as [Hq _].
    assert (c' = c) as -> by congruence.
    exists (note_added t u c), (adds ++ [(u, t)]). split; [congruence|].
    split; [by apply note_added_points_after|].
    rewrite length_app. simpl. lia.
  - destruct IH as (c & adds & Hc & Hpts & Hlen).
    apply list_notes_from_db_inv in Hlist as [[Hq _] _].
    exists c, adds. split; [congruence|done].
  - destruct IH as (c & adds & Hc & Hpts & Hlen).
    destruct (assure_db_collection_exists_points _ _ _ _ Hassure Hc)
      as (c' & Hc' & Hpts').
    exists c', adds. split; [done|]. split; [congruence|done].
  - exact IH.
  - exact IH.
Qed.

(** C10.  Along a sequential run from an empty collection, after [n]
    calls of [add_note_to_db] have written their note the collection
    holds [n] points, under the ids [1] to [n] exactly; the id the next
    call takes, [n + 1], is in use by no point, and a call that returns
    inserts its point there and leaves the others alone. *)
Theorem sequential_adds_take_fresh_ids w0 c0 n w :
  qdrant w0 = Some c0 → points c0 = ∅ → reaches w0 n w →
  ∃ c, qdrant w = Some c ∧
    size (points c) = n ∧
    (∀ i, is_Some (points c !! i) ↔ 1 ≤ i ≤ Z.of_nat n) ∧
    next_id w = Z.of_nat n + 1 ∧
    points c !! next_id w = None ∧
    ∀ note_text w',
      add_note_to_db note_text w = (Returned tt, w') →
      ∃ u c', ss_user_id (session w) = Some u ∧ qdrant w' = Some c' ∧
        points c' = <[Z.of_nat n + 1 :=
                        (embedding note_text,
                         {| pl_text := note_text; pl_user_id := u |})]> (points c) ∧
        size (points c') = S n ∧
        (∀ i, is_Some (points c' !! i) ↔ 1 ≤ i ≤ Z.of_nat (S n)).
Proof.
  intros Hc0 Hempty Hrun.
  destruct (reaches_points_after _ _ _ _ Hc0 Hempty Hrun)
    as (c & adds & Hc & Hpts & Hlen).
  destruct (points_after_dense embedding adds) as [Hsize Hdense].
  rewrite <- Hpts, Hlen in Hsize, Hdense.
  assert (next_id w = Z.of_nat n + 1) as Hnext
    by (unfold next_id; by rewrite Hc, Hsize).
  assert (points c !! (Z.of_nat n + 1) = None) as Hfresh.
  { apply eq_None_not_Some. rewrite Hdense. lia. }
  exists c. split; [done|]. split; [done|]. split; [done|].
  split; [done|]. split; [by rewrite Hnext|].
  intros t w' Hadd.
  apply add_note_to_db_written in Hadd as (u & c' & Hu & Hc' & Hc1 & _).
  assert (c' = c) as -> by congruence.
  exists u, (note_added t u c). split; [done|]. split; [done|].
  simpl. rewrite Hsize. split; [done|].
  split; [by rewrite map_size_insert_None, Hsize|].
  intros i. rewrite lookup_insert_is_Some, Hdense. lia.
Qed.

End Ids.

(** ** The user of a session *)

Section Credential.

Variable md5_hexdigest : pystr → pystr.

(** A run of [get_api_key_securely] that verifies the key ends the script
    run with a [RerunException] and leaves in the session the key and its
    MD5 digest as the user. *)
Lemma get_api_key_securely_verifies raw_api_key w r w' :
  api_key_verified (session w) ≠ Some true →
  get_api_key_securely md5_hexdigest raw_api_key w = (r, w') →
  api_key_verified (session w') = Some true →
  r = Raised RerunException ∧
  openai_api_key (session w') = Some raw_api_key ∧
  ss_user_id (session w') = Some (md5_hexdigest raw_api_key).
Proof.
  unfold get_api_key_securely. intros Hnot H Hdone.
  destruct w as [c s fs]. simpl in Hnot.
  destruct s as [[[|]|] k u hs lq sr]; [done| |];
    run_unfold; unfold remote in H; simpl in H;
    destruct raw_api_key as [|ch key]; simpl in H; simplify_eq; try done;
    destruct fs as [|[code|] fs]; simpl in H; simplify_eq; done.
Qed.

(** Two verifications of one key, in whatever sessions, give one user. *)
Lemma get_api_key_securely_deterministic raw_api_key w1 r1 w1' w2 r2 w2' :
  api_key_verified (session w1) ≠ Some true →
  api_key_verified (session w2) ≠ Some true →
  get_api_key_securely md5_hexdigest raw_api_key w1 = (r1, w1') →
  get_api_key_securely md5_hexdigest raw_api_key w2 = (r2, w2') →
  api_key_verified (session w1') = Some true →
  api_key_verified (session w2') = Some true →
  ss_user_id (session w1') = ss_user_id (session w2').
Proof.
  intros Hn1 Hn2 H1 H2 Hv1 Hv2.
  destruct (get_api_key_securely_verifies _ _ _ _ Hn1 H1 Hv1) as (_ & _ & ->).
  by destruct (get_api_key_securely_verifies _ _ _ _ Hn2 H2 Hv2) as (_ & _ & ->).
Qed.

End Credential.

(** ** The properties at work on sample runs

    Each property above is applied to a run of the program on the sample
    data.  Where the program does not do what its specification says, the
    run that shows it comes first. *)

Lemma add_note_to_db_upserts_at_count_plus_one_witness :
  sample_add (py "buy milk tomorrow") w_alice = (Returned tt, w_milk) ∧
  ∃ u c c',
    ss_user_id (session w_alice) = Some u ∧ qdrant w_alice = Some c ∧
    qdrant w_milk = Some c' ∧
    (let i := Z.of_nat (size (points c)) + 1 in
     let p := (sample_embedding (py "buy milk tomorrow"),
               {| pl_text := py "buy milk tomorrow"; pl_user_id := u |}) in
     points c' = <[i := p]> (points c) ∧
     points c' !! i = Some p ∧
     ∀ j, j ≠ i → points c' !! j = points c !! j).
Proof.
  split; [reflexivity|].
  apply (add_note_to_db_upserts_at_count_plus_one sample_embedding sample_cosine
           (py "buy milk tomorrow") w_alice w_milk).
  reflexivity.
Defined.

Lemma notes_of_one_user_hidden_from_another_witness :
  let res := returned_or [] (sample_list (Some (py "grocery list")) w_fence).1 in
  e_text <$> res = [py "paint the fence"] ∧
  holds_note w_milk (next_id w_alice)
    {| pl_text := py "buy milk tomorrow"; pl_user_id := alice |} ∧
  ∃ notes,
    select_notes sample_embedding sample_cosine (Some (py "grocery list")) w_fence
      = (Returned notes, w_fence) ∧
    res = entry_of <$> notes ∧
    (next_id w_alice ∉ hit_id <$> notes) ∧
    Forall (λ n, pl_user_id (hit_payload n) = bob) notes.
Proof.
  split; [vm_compute; reflexivity|].
  apply (notes_of_one_user_hidden_from_another sample_embedding sample_cosine
           (py "buy milk tomorrow") alice bob (Some (py "grocery list"))
           w_alice w_milk w_fence w_fence).
  - reflexivity.
  - vm_compute. reflexivity.
  - discriminate.
  - reflexivity.
  - unfold holds_note. vm_compute. eexists _, _. split; reflexivity.
  - vm_compute. reflexivity.
Defined.

Lemma list_notes_from_db_ranks_the_notes_of_the_user_witness :
  let res := returned_or [] (sample_list (Some (py "milk")) w_three).1 in
  length res = 3%nat ∧
  (length res ≤ 10)%nat ∧
  StronglySorted entry_outranks res ∧
  Forall (λ e, is_Some (e_score e)) res ∧
  ∃ c, qdrant w_three = Some c ∧
    Forall (λ e, ∃ i v pl,
              points c !! i = Some (v, pl) ∧ pl_user_id pl = alice ∧
              e = {| e_text := pl_text pl;
                     e_score := Some (sample_cosine (sample_embedding (py "milk")) v) |})
      res.
Proof.
  split; [reflexivity|].
  apply (list_notes_from_db_ranks_the_notes_of_the_user sample_embedding sample_cosine
           alice (py "milk") w_three _ w_three).
  - reflexivity.
  - apply Exists_cons_hd. reflexivity.
  - reflexivity.
Defined.

Lemma list_notes_from_db_browses_in_store_order_witness :
  let res := returned_or [] (sample_list (Some (py "  ")) w_three).1 in
  e_text <$> res = [py "buy milk tomorrow"; py "call the plumber"; py "walk"] ∧
  ∃ c, qdrant w_three = Some c ∧
    res = (λ p, {| e_text := pl_text p.2.2; e_score := None |})
          <$> take 10 (filter (λ p, pl_user_id p.2.2 = alice) (ordered_points c)) ∧
    StronglySorted by_id (ordered_points c) ∧
    (length res ≤ 10)%nat ∧
    Forall (λ e, e_score e = None ∧ ∀ s : Q, e_score e ≠ Some s) res ∧
    ∀ adds, points c = points_after sample_embedding adds →
      res = take 10 ((λ a, {| e_text := a.2; e_score := None |})
                     <$> filter (λ a, a.1 = alice) adds).
Proof.
  split; [reflexivity|].
  apply (list_notes_from_db_browses_in_store_order sample_embedding sample_cosine
           alice (Some (py "  ")) w_three _ w_three).
  - reflexivity.
  - right. exists (py "  "). split; [reflexivity|].
    repeat constructor.
  - reflexivity.
Defined.

Lemma added_note_is_listed_within_the_first_ten_witness :
  let w := after_adding [py "buy milk tomorrow"; py "call the plumber"] w_alice in
  (sample_add (py "walk") w).2 = w_three ∧
  owned_below alice (next_id w) w_three = 2%nat ∧
  (∀ i pl, holds_note w_three i pl → pl_user_id pl = alice → i ≤ next_id w) ∧
  holds_note w_three (next_id w) {| pl_text := py "walk"; pl_user_id := alice |} ∧
  ((owned alice w_three ≤ 10)%nat →
   {| e_text := py "walk"; e_score := None |}
     ∈ returned_or [] (sample_list None w_three).1) ∧
  ∃ notes,
    select_notes sample_embedding sample_cosine None w_three = (Returned notes, w_three) ∧
    returned_or [] (sample_list None w_three).1 = entry_of <$> notes ∧
    (next_id w ∈ hit_id <$> notes ↔ (owned_below alice (next_id w) w_three < 10)%nat) ∧
    (next_id w ∈ hit_id <$> notes →
     {| e_text := py "walk"; e_score := None |}
       ∈ returned_or [] (sample_list None w_three).1) ∧
    ((∀ i pl, holds_note w_three i pl → pl_user_id pl = alice → i ≤ next_id w) →
     next_id w ∈ hit_id <$> notes ↔ (owned alice w_three ≤ 10)%nat).
Proof.
  intros w.
  split; [vm_compute; reflexivity|]. split; [vm_compute; reflexivity|].
  split.
  { intros i pl (c & v & Hc & Hi) _.
    assert (c = default {| points := ∅; payload_indexes := [] |} (qdrant w_three))
      as -> by (by rewrite Hc).
    apply elem_of_ordered_points in Hi.
    assert (i ∈ (ordered_points
                   (default {| points := ∅; payload_indexes := [] |} (qdrant w_three))).*1)
      as Hid by (by apply (list_elem_of_fmap_2' _ _ (i, (v, pl)))).
    vm_compute in Hid.
    replace (next_id w) with 3 by (vm_compute; reflexivity).
    repeat (apply elem_of_cons in Hid as [->|Hid]; [lia|]).
    by apply elem_of_nil in Hid. }
  apply (added_note_is_listed_within_the_first_ten sample_embedding sample_cosine
           (py "walk") alice None w w_three _ w_three).
  - reflexivity.
  - vm_compute. reflexivity.
  - by left.
  - vm_compute. reflexivity.
Defined.

(** C5 fails on the eleventh note of a user: Alice has ten notes, saves
    one more, and a listing without a query, which stops at ten notes, does
    not hold it. *)
Lemma eleventh_note_is_not_listed :
  ss_user_id (session w_ten) = Some alice ∧
  (sample_add (py "eleventh") w_ten).1 = Returned tt ∧
  holds_note (sample_add (py "eleventh") w_ten).2 11
    {| pl_text := py "eleventh"; pl_user_id := alice |} ∧
  ∃ res,
    (sample_list None (sample_add (py "eleventh") w_ten).2).1 = Returned res ∧
    length res = 10%nat ∧
    py "eleventh" ∉ e_text <$> res.
Proof.
  split; [reflexivity|]. split; [vm_compute; reflexivity|]. split.
  { unfold holds_note. vm_compute. eexists _, _. split; reflexivity. }
  eexists. split; [vm_compute; reflexivity|]. split; [reflexivity|].
  apply (bool_decide_unpack _). vm_compute. exact I.
Defined.

Lemma assure_db_collection_exists_swallows_index_failures_witness :
  (∀ e, Returned tt = Raised e →
     collection_exists w_index_fails = (Raised e, w_alice) ∨
     ∃ w1, collection_exists w_index_fails = (Returned false, w1) ∧
           create_collection w1 = (Raised e, w_alice)) ∧
  (∀ b w1 w2,
     collection_exists w_index_fails = (Returned b, w1) →
     (if negb b then create_collection else mret tt) w1 = (Returned tt, w2) →
     Returned tt = Returned tt ∧
     ∃ r2, create_payload_index "user_id" "keyword" w2 = (r2, w_alice)).
Proof.
  apply (assure_db_collection_exists_swallows_index_failures
           w_index_fails (Returned tt) w_alice).
  reflexivity.
Defined.

(** C6 fails on a failure of the creation of the index that has nothing to
    do with an index being there: the store answers 500, and
    [assure_db_collection_exists] returns as if nothing had happened. *)
Lemma index_failure_does_not_reach_the_caller :
  collection_exists w_index_fails = (Returned true, with_faults [Some 500] w_alice) ∧
  create_payload_index "user_id" "keyword" (with_faults [Some 500] w_alice)
    = (Raised (ApiError VectorStore 500), w_alice) ∧
  assure_db_collection_exists w_index_fails = (Returned tt, w_alice) ∧
  (assure_db_collection_exists w_index_fails).1 ≠ Raised (ApiError VectorStore 500).
Proof.
  split; [reflexivity|]. split; [reflexivity|]. split; [reflexivity|].
  discriminate.
Defined.

Lemma add_note_to_db_refreshes_search_results_witness :
  ∃ q res,
    last_query (session w_searching) = Some q ∧
    last_query (session (sample_add (py "buy milk tomorrow") w_searching).2) = Some q ∧
    has_searched (session (sample_add (py "buy milk tomorrow") w_searching).2)
      = has_searched (session w_searching) ∧
    search_results (session (sample_add (py "buy milk tomorrow") w_searching).2)
      = Some res ∧
    sample_list (Some q)
      (with_faults [] (sample_add (py "buy milk tomorrow") w_searching).2)
      = (Returned res,
         with_faults [] (sample_add (py "buy milk tomorrow") w_searching).2) ∧
    ∀ fs res' w'',
      sample_list (Some q)
        (with_faults fs (sample_add (py "buy milk tomorrow") w_searching).2)
        = (Returned res', w'') →
      res' = res.
Proof.
  apply (add_note_to_db_refreshes_search_results sample_embedding sample_cosine
           (py "buy milk tomorrow") w_searching).
  - reflexivity.
  - vm_compute. reflexivity.
Defined.

Lemma failures_of_add_note_to_db_reach_the_caller_witness :
  sample_add (py "buy milk tomorrow") w_embedding_fails
    = (Raised (ApiError Embedding 429), w_alice) ∧
  unmodified w_embedding_fails
    (Raised (ApiError Embedding 429) : outcome unit) w_alice ∧
  session w_alice = session w_embedding_fails ∧
  qdrant w_alice = qdrant w_embedding_fails.
Proof.
  assert (sample_add (py "buy milk tomorrow") w_embedding_fails
          = (Raised (ApiError Embedding 429), w_alice)) as Hrun
    by (vm_compute; reflexivity).
  split; [exact Hrun|].
  destruct (failures_of_add_note_to_db_reach_the_caller
              sample_embedding sample_cosine (λ _, [])
              (py "buy milk tomorrow") w_embedding_fails _ w_alice Hrun)
    as (Hunmodified & Hstate & Hembedding & _).
  split; [exact Hunmodified|].
  destruct (Hstate _ eq_refl) as [Hsession _].
  split; [exact Hsession|].
  destruct (Hembedding 0 (with_faults [Some 429] w_alice)
              (ApiError Embedding 429) w_alice) as (_ & _ & Hq).
  - by eexists.
  - vm_compute. reflexivity.
  - vm_compute. reflexivity.
  - exact Hq.
Defined.

(** C8 fails when the refresh of the search results fails: the count, the
    embedding of the note and the upsert went through, the embedding of the
    remembered query is refused, [add_note_to_db] raises, and the note is in
    the collection. *)
Lemma failed_add_note_to_db_has_written_the_note :
  (sample_add (py "buy milk tomorrow") w_refresh_fails).1
    = Raised (ApiError Embedding 429) ∧
  qdrant (sample_add (py "buy milk tomorrow") w_refresh_fails).2
    ≠ qdrant w_refresh_fails ∧
  holds_note (sample_add (py "buy milk tomorrow") w_refresh_fails).2 1
    {| pl_text := py "buy milk tomorrow"; pl_user_id := alice |} ∧
  ¬ holds_note w_refresh_fails 1
      {| pl_text := py "buy milk tomorrow"; pl_user_id := alice |}.
Proof.
  split; [vm_compute; reflexivity|].
  assert (holds_note (sample_add (py "buy milk tomorrow") w_refresh_fails).2 1
            {| pl_text := py "buy milk tomorrow"; pl_user_id := alice |}) as Hin.
  { unfold holds_note. vm_compute. eexists _, _. split; reflexivity. }
  assert (¬ holds_note w_refresh_fails 1
              {| pl_text := py "buy milk tomorrow"; pl_user_id := alice |}) as Hout.
  { intros (c & v & Hc & Hpt). vm_compute in Hc. simplify_eq. }
  split; [|done].
  intros Heq. apply Hout. destruct Hin as (c & v & Hc & Hpt).
  exists c, v. split; [by rewrite <- Heq|done].
Defined.

Lemma sequential_adds_take_fresh_ids_witness :
  ∃ c, qdrant w_three = Some c ∧
    size (points c) = 3%nat ∧
    (∀ i, is_Some (points c !! i) ↔ 1 ≤ i ≤ Z.of_nat 3) ∧
    next_id w_three = Z.of_nat 3 + 1 ∧
    points c !! next_id w_three = None ∧
    ∀ note_text w',
      sample_add note_text w_three = (Returned tt, w') →
      ∃ u c', ss_user_id (session w_three) = Some u ∧ qdrant w' = Some c' ∧
        points c' = <[Z.of_nat 3 + 1 :=
                        (sample_embedding note_text,
                         {| pl_text := note_text; pl_user_id := u |})]> (points c) ∧
        size (points c') = 4%nat ∧
        (∀ i, is_Some (points c' !! i) ↔ 1 ≤ i ≤ Z.of_nat 4).
Proof.
  apply (sequential_adds_take_fresh_ids sample_embedding sample_cosine
           w_alice {| points := ∅; payload_indexes := [("user_id", "keyword")] |}
           3 w_three).
  - reflexivity.
  - reflexivity.
  - apply (reaches_add _ _ _ _ (after_adding [py "buy milk tomorrow"; py "call the plumber"] w_alice)
             (py "walk")); [|vm_compute; reflexivity].
    apply (reaches_add _ _ _ _ w_milk (py "call the plumber")); [|vm_compute; reflexivity].
    apply (reaches_add _ _ _ _ w_alice (py "buy milk tomorrow")); [|vm_compute; reflexivity].
    apply reaches_start.
Defined.

(** * Further properties *)

(** ** What a listing holds *)

Lemma length_filtered_points_owned u w c :
  qdrant w = Some c → length (filtered_points (user_filter u) c) = owned u w.
Proof. unfold owned. by intros ->. Qed.

Lemma hit_id_search_points (cosine : Vector → Vector → Q) (qv : Vector) flt limit c :
  hit_id <$> search_points cosine qv flt limit c
  = (λ s : Q * (Z * Payload), s.2.1)
    <$> take limit (merge_sort best_first
          ((λ p : Z * (Vector * Payload), (cosine qv p.2.1, (p.1, p.2.2))) <$> filtered_points flt c)).
Proof. unfold search_points. by rewrite <- list_fmap_compose. Qed.

Lemma search_points_ids_Permutation (cosine : Vector → Vector → Q) (qv : Vector) flt c :
  (λ s : Q * (Z * Payload), s.2.1)
    <$> merge_sort best_first
          ((λ p : Z * (Vector * Payload), (cosine qv p.2.1, (p.1, p.2.2))) <$> filtered_points flt c)
  ≡ₚ (filtered_points flt c).*1.
Proof. rewrite merge_sort_Permutation, <- list_fmap_compose. done. Qed.

Section Listings.

Variable embedding : pystr → Vector.
Variable cosine : Vector → Vector → Q.

Local Abbreviation select_notes := (select_notes embedding cosine).
Local Abbreviation list_notes_from_db := (list_notes_from_db embedding cosine).
Local Abbreviation notes_of := (notes_of embedding cosine).

Lemma length_notes_of query u c :
  length (notes_of query u c) = (10 `min` length (filtered_points (user_filter u) c))%nat.
Proof.
  destruct (query_given query) eqn:Hmode.
  - destruct query as [q|]; [|done]. rewrite notes_of_query by done.
    unfold search_points.
    by rewrite length_fmap, length_take, merge_sort_Permutation, length_fmap.
  - rewrite notes_of_browse by done. unfold scroll_page. simpl.
    by rewrite length_fmap, length_take.
Qed.

Lemma notes_of_NoDup query u c : NoDup (hit_id <$> notes_of query u c).
Proof.
  destruct (query_given query) eqn:Hmode.
  - destruct query as [q|]; [|done]. rewrite notes_of_query by done.
    rewrite hit_id_search_points.
    eapply sublist_NoDup; [|apply fmap_sublist, sublist_take].
    rewrite search_points_ids_Permutation. apply filtered_points_NoDup.
  - rewrite notes_of_browse by done. rewrite hit_id_scroll_page.
    eapply sublist_NoDup; [|apply fmap_sublist, sublist_take].
    apply filtered_points_NoDup.
Qed.

Lemma notes_of_complete query u c i v pl :
  (length (filtered_points (user_filter u) c) ≤ 10)%nat →
  points c !! i = Some (v, pl) → pl_user_id pl = u →
  i ∈ hit_id <$> notes_of query u c.
Proof.
  intros Hlen Hi Hu.
  assert ((i, (v, pl)) ∈ filtered_points (user_filter u) c) as Hin.
  { apply elem_of_filtered_points. split; [done|]. by apply filter_matches_user. }
  destruct (query_given query) eqn:Hmode.
  - destruct query as [q|]; [|done]. rewrite notes_of_query by done.
    rewrite hit_id_search_points, take_ge.
    + rewrite search_points_ids_Permutation.
      by apply (list_elem_of_fmap_2' fst _ (i, (v, pl))).
    + by rewrite merge_sort_Permutation, length_fmap.
  - rewrite notes_of_browse by done. rewrite hit_id_scroll_page, take_ge by done.
    by apply (list_elem_of_fmap_2' fst _ (i, (v, pl))).
Qed.

(** X1.  [list_notes_from_db] only reads: whether it returns or raises,
    the collection and the session are what they were. *)
Theorem list_notes_from_db_changes_nothing query w r w' :
  list_notes_from_db query w = (r, w') →
  qdrant w' = qdrant w ∧ session w' = session w.
Proof. intros H. by apply list_notes_from_db_inv in H as [[? ?] _]. Qed.

(** X2.  In either mode a listing that returns has as many entries as the
    user owns notes, up to 10. *)
Theorem list_notes_from_db_length u query w res w' :
  ss_user_id (session w) = Some u →
  list_notes_from_db query w = (Returned res, w') →
  length res = (10 `min` owned u w)%nat.
Proof.
  intros Hu H. apply list_notes_from_db_inv in H as [_ H].
  destruct (H res eq_refl) as (u' & c & Hu' & Hc & _ & ->).
  assert (u' = u) as -> by congruence.
  rewrite length_fmap, length_notes_of. by rewrite (length_filtered_points_owned u w c).
Qed.

(** X3.  With a query, the notes of the user that a listing leaves out score
    no better than any note it holds: the listing is made of the best 10. *)
Theorem query_listing_holds_the_best u q w notes w' c i v pl n :
  ss_user_id (session w) = Some u →
  non_blank q →
  select_notes (Some q) w = (Returned notes, w') →
  qdrant w = Some c →
  points c !! i = Some (v, pl) →
  pl_user_id pl = u →
  i ∉ hit_id <$> notes →
  n ∈ notes →
  ∃ s, getattr_score n = Some s ∧ (cosine (embedding q) v <= s)%Q.
Proof.
  intros Hu Hq Hsel Hc Hi Hown Hout Hn. apply query_given_non_blank in Hq.
  apply select_notes_inv in Hsel as [_ Hsel].
  destruct (Hsel notes eq_refl) as (u' & c' & Hu' & Hc' & ->).
  assert (u' = u) as -> by congruence. assert (c' = c) as -> by congruence.
  rewrite notes_of_query in Hout, Hn by done.
  rewrite hit_id_search_points in Hout. unfold search_points in Hn.
  set (l := merge_sort best_first
              ((λ p : Z * (Vector * Payload), (cosine (embedding q) p.2.1, (p.1, p.2.2)))
               <$> filtered_points (user_filter u) c)) in *.
  assert ((cosine (embedding q) v, (i, pl)) ∈ l) as Hx.
  { unfold l. rewrite merge_sort_Permutation.
    apply (list_elem_of_fmap_2' _ _ (i, (v, pl))); [|done].
    apply elem_of_filtered_points. split; [done|]. by apply filter_matches_user. }
  assert (StronglySorted best_first (take 10 l ++ drop 10 l)) as Hsorted.
  { rewrite take_drop. apply (StronglySorted_merge_sort _). }
  rewrite <- (take_drop 10 l), elem_of_app in Hx. destruct Hx as [Hx|Hx].
  { exfalso. apply Hout.
    by apply (list_elem_of_fmap_2' _ _ (cosine (embedding q) v, (i, pl))). }
  apply list_elem_of_fmap in Hn as (y & -> & Hy).
  exists y.1. split; [done|].
  apply (StronglySorted_app_1_elem_of _ _ _ _ _ Hsorted Hy Hx).
Qed.

(** X4.  Without a query, the notes of the user that a listing leaves out
    have ids above the id of every note it holds: the listing is made of the
    10 notes of lowest id, the oldest ones when ids were given in order. *)
Theorem browse_listing_holds_the_lowest_ids u query w notes w' c i v pl n :
  ss_user_id (session w) = Some u →
  query = None ∨ (∃ q, query = Some q ∧ blank q) →
  select_notes query w = (Returned notes, w') →
  qdrant w = Some c →
  points c !! i = Some (v, pl) →
  pl_user_id pl = u →
  i ∉ hit_id <$> notes →
  n ∈ notes →
  hit_id n < i.
Proof.
  intros Hu Hmode Hsel Hc Hi Hown Hout Hn.
  assert (query_given query = false) as Hbrowse.
  { destruct Hmode as [->|(q & -> & Hq)]; [done|by apply query_given_blank]. }
  apply select_notes_inv in Hsel as [_ Hsel].
  destruct (Hsel notes eq_refl) as (u' & c' & Hu' & Hc' & ->).
  assert (u' = u) as -> by congruence. assert (c' = c) as -> by congruence.
  rewrite notes_of_browse in Hout, Hn by done.
  rewrite hit_id_scroll_page in Hout. unfold scroll_page in Hn. simpl in Hn.
  set (l := filtered_points (user_filter u) c) in *.
  assert ((i, (v, pl)) ∈ l) as Hx.
  { apply elem_of_filtered_points. split; [done|]. by apply filter_matches_user. }
  assert (StronglySorted by_id (take 10 l ++ drop 10 l)) as Hsorted.
  { rewrite take_drop. apply filtered_points_sorted. }
  rewrite <- (take_drop 10 l), elem_of_app in Hx. destruct Hx as [Hx|Hx].
  { exfalso. apply Hout. by apply (list_elem_of_fmap_2' _ _ (i, (v, pl))). }
  apply list_elem_of_fmap in Hn as (y & -> & Hy). simpl.
  pose proof (StronglySorted_app_1_elem_of _ _ _ _ _ Hsorted Hy Hx) as Hle.
  unfold by_id in Hle. simpl in Hle.
  assert (y.1 ≠ i); [|lia].
  intros <-. apply Hout. by apply (list_elem_of_fmap_2' _ _ y).
Qed.

(** X5.  No note comes twice in a listing, and a user who owns at most 10
    notes finds every one of them in it, in either mode. *)
Theorem listing_is_complete_up_to_ten u query w notes w' :
  ss_user_id (session w) = Some u →
  select_notes query w = (Returned notes, w') →
  NoDup (hit_id <$> notes) ∧
  ((owned u w ≤ 10)%nat →
   ∀ i pl, holds_note w i pl → pl_user_id pl = u → i ∈ hit_id <$> notes).
Proof.
  intros Hu Hsel. apply select_notes_inv in Hsel as [_ Hsel].
  destruct (Hsel notes eq_refl) as (u' & c & Hu' & Hc & ->).
  assert (u' = u) as -> by congruence.
  split; [apply notes_of_NoDup|].
  intros Hlen i pl (c' & v & Hc' & Hi) Hown.
  assert (c' = c) as -> by congruence.
  apply (notes_of_complete query u c i v pl); [|done..].
  by rewrite (length_filtered_points_owned u w c).
Qed.

End Listings.

(** ** What an add does to the collection *)

Lemma filtered_points_insert_other flt c i v pl :
  points c !! i = None → filter_matches flt pl = false →
  filtered_points flt {| points := <[i := (v, pl)]> (points c);
                         payload_indexes := payload_indexes c |}
  = filtered_points flt c.
Proof.
  intros Hfresh Hno. apply (StronglySorted_unique_strong by_id).
  - intros [i1 [v1 pl1]] [i2 [v2 pl2]] H1 H2. unfold by_id. simpl. intros ? ?.
    assert (i1 = i2) as -> by lia.
    apply elem_of_filtered_points in H1 as [H1 _].
    apply elem_of_filtered_points in H2 as [H2 _]. simpl in H1.
    rewrite lookup_insert_ne in H1 by congruence. congruence.
  - apply filtered_points_sorted.
  - apply filtered_points_sorted.
  - unfold filtered_points, ordered_points. simpl.
    rewrite !merge_sort_Permutation, map_to_list_insert by done.
    rewrite filter_cons_False; [done|]. simpl. rewrite Hno. by intros [].
Qed.

Section Adds.

Variable embedding : pystr → Vector.
Variable cosine : Vector → Vector → Q.

Local Abbreviation list_notes_from_db := (list_notes_from_db embedding cosine).
Local Abbreviation add_note_to_db := (add_note_to_db embedding cosine).
Local Abbreviation notes_of := (notes_of embedding cosine).
Local Abbreviation note_added := (note_added embedding).

Lemma notes_of_note_added_other query note_text u1 u2 c :
  points c !! (Z.of_nat (size (points c)) + 1) = None → u2 ≠ u1 →
  notes_of query u2 (note_added note_text u1 c) = notes_of query u2 c.
Proof.
  intros Hfresh Hne.
  assert (filtered_points (user_filter u2) (note_added note_text u1 c)
          = filtered_points (user_filter u2) c) as Hflt.
  { apply filtered_points_insert_other; [done|].
    apply not_true_iff_false. rewrite filter_matches_user. simpl. congruence. }
  unfold_notes_of. unfold search_points, scroll_page. by rewrite Hflt.
Qed.

(** X6.  When the id [add_note_to_db] takes is in use (the collection has
    fewer points than its highest id), the note replaces the point that was
    there, whoever owned it: the collection does not grow, so the next add
    takes the same id again. *)
Theorem add_note_to_db_replaces_at_a_taken_id note_text w w1 c old :
  add_note_to_db note_text w = (Returned tt, w1) →
  qdrant w = Some c →
  points c !! next_id w = Some old →
  ∃ u c1,
    ss_user_id (session w) = Some u ∧ qdrant w1 = Some c1 ∧
    points c1 !! next_id w
      = Some (embedding note_text, {| pl_text := note_text; pl_user_id := u |}) ∧
    size (points c1) = size (points c) ∧
    next_id w1 = next_id w ∧
    ∀ j, j ≠ next_id w → points c1 !! j = points c !! j.
Proof.
  intros Hadd Hc Hold.
  apply add_note_to_db_written in Hadd as (u & c' & Hu & Hc' & Hc1 & _).
  assert (c' = c) as -> by congruence.
  unfold next_id in *. rewrite Hc in *. rewrite Hc1.
  exists u, (note_added note_text u c). simpl.
  assert (size (<[Z.of_nat (size (points c)) + 1 :=
                    (embedding note_text,
                     {| pl_text := note_text; pl_user_id := u |})]> (points c))
          = size (points c)) as Hsize by (by apply map_size_insert_Some).
  split; [done|]. split; [done|]. split; [apply lookup_insert_eq|].
  split; [done|]. split; [by rewrite Hsize|].
  intros j Hj. by apply lookup_insert_ne.
Qed.

(** X7.  An add that takes a free id changes nothing for the other users:
    whatever the query, a listing made for another user gives after the
    add what it gave before. *)
Theorem add_note_to_db_leaves_the_listings_of_others
    note_text u1 u2 query w w1 s2 :
  ss_user_id (session w) = Some u1 →
  add_note_to_db note_text w = (Returned tt, w1) →
  (∀ pl, ¬ holds_note w (next_id w) pl) →
  u2 ≠ u1 →
  ss_user_id s2 = Some u2 →
  (list_notes_from_db query (with_faults [] (with_session s2 w1))).1
  = (list_notes_from_db query (with_faults [] (with_session s2 w))).1.
Proof.
  intros Hu1 Hadd Hfree Hne Hu2.
  apply add_note_to_db_written in Hadd as (u & c & Hu & Hc & Hc1 & _).
  assert (u = u1) as -> by congruence.
  assert (points c !! (Z.of_nat (size (points c)) + 1) = None) as Hfresh.
  { destruct (points c !! (Z.of_nat (size (points c)) + 1)) as [[v pl]|] eqn:Hpt; [|done].
    exfalso. apply (Hfree pl). exists c, v. split; [done|].
    unfold next_id. by rewrite Hc. }
  rewrite (list_notes_from_db_quiet embedding cosine query
             (with_faults [] (with_session s2 w1)) u2 (note_added note_text u1 c))
    by done.
  rewrite (list_notes_from_db_quiet embedding cosine query
             (with_faults [] (with_session s2 w)) u2 c) by done.
  simpl. by rewrite notes_of_note_added_other.
Qed.

End Adds.

(** ** Bootstrap and credential *)

(** X8.  When [assure_db_collection_exists] returns, the collection is
    there: with the points it had if it was there before, empty if it was
    not.  The session is untouched. *)
Theorem assure_db_collection_exists_leaves_a_collection w w' :
  assure_db_collection_exists w = (Returned tt, w') →
  session w' = session w ∧
  ∃ c', qdrant w' = Some c' ∧
        points c' = match qdrant w with Some c => points c | None => ∅ end.
Proof.
  unfold assure_db_collection_exists, collection_exists, create_collection,
    create_payload_index.
  intros H. destruct w as [[c|] s fs]; run_unfold; unfold remote in H.
  - destruct fs as [|[code1|] [|[code2|] fs]]; simpl in H; simplify_eq; eauto.
  - destruct fs as [|[code1|] [|[code2|] [|[code3|] fs]]];
      simpl in H; simplify_eq; eauto.
Qed.

Section Credentials.

Variable md5_hexdigest : pystr → pystr.

Local Abbreviation get_api_key_securely := (get_api_key_securely md5_hexdigest).

(** The session when a run of [get_api_key_securely] is over. *)
Lemma get_api_key_securely_cases raw_api_key w r w' :
  get_api_key_securely raw_api_key w = (r, w') →
  qdrant w' = qdrant w ∧
  ((api_key_verified (session w) = Some true ∧ w' = w ∧
    match openai_api_key (session w) with
    | Some key => r = Returned key
    | None => r = Raised (KeyError "openai_api_key")
    end)
   ∨
   (api_key_verified (session w) ≠ Some true ∧
    ((r = Raised RerunException ∧ raw_api_key ≠ [] ∧
      api_key_verified (session w') = Some true ∧
      openai_api_key (session w') = Some raw_api_key ∧
      ss_user_id (session w') = Some (md5_hexdigest raw_api_key))
     ∨
     (r = Raised StopException ∧
      api_key_verified (session w') = Some false ∧
      openai_api_key (session w') = openai_api_key (session w) ∧
      ss_user_id (session w') = ss_user_id (session w) ∧
      (raw_api_key = [] → faults w' = faults w))))).
Proof.
  unfold_get_api_key_securely. intros H.
  destruct w as [c s fs].
  destruct s as [[[|]|] [k|] u hs lq sr];
    run_unfold; unfold remote in H; simpl in H; simplify_eq;
    try (split; [done|left; done]);
    destruct raw_api_key as [|ch raw]; simpl in H; simplify_eq;
    try (split; [done|right; split; [done|right; done]]);
    destruct fs as [|[code|] fs]; simpl in H; simplify_eq;
    (split; [done|right; split; [done|]]);
    try (left; done); right; done.
Qed.

(** X9.  [get_api_key_securely] returns a key only to a session that was
    verified before the run: it is the key of the session, no service is
    called and nothing changes. *)
Theorem get_api_key_securely_returns_the_verified_key raw_api_key w key w' :
  get_api_key_securely raw_api_key w = (Returned key, w') →
  api_key_verified (session w) = Some true ∧
  openai_api_key (session w) = Some key ∧
  w' = w.
Proof.
  intros H.
  apply get_api_key_securely_cases in H
    as [_ [(Hv & -> & Hk)|(_ & [(? & _)|(? & _)])]]; [|done..].
  destruct (openai_api_key (session w)); by simplify_eq.
Qed.

(** X10.  On a session that is not verified a run never returns.  It ends
    in a rerun, with the key and the MD5 digest of the key stored as user,
    when the key is not empty and the provider answers; otherwise it ends
    in a stop and stores no key and no user.  An empty key makes no call. *)
Theorem get_api_key_securely_stores_an_accepted_key_only raw_api_key w r w' :
  api_key_verified (session w) ≠ Some true →
  get_api_key_securely raw_api_key w = (r, w') →
  qdrant w' = qdrant w ∧
  ((r = Raised RerunException ∧ raw_api_key ≠ [] ∧
    api_key_verified (session w') = Some true ∧
    openai_api_key (session w') = Some raw_api_key ∧
    ss_user_id (session w') = Some (md5_hexdigest raw_api_key))
   ∨
   (r = Raised StopException ∧
    api_key_verified (session w') = Some false ∧
    openai_api_key (session w') = openai_api_key (session w) ∧
    ss_user_id (session w') = ss_user_id (session w) ∧
    (raw_api_key = [] → faults w' = faults w))).
Proof.
  intros Hnot H.
  apply get_api_key_securely_cases in H as [Hq [(Hv & _)|(_ & H)]]; done.
Qed.

End Credentials.

(** ** Missing keys *)

Lemma api_only_bind {A B} (m : M A) (f : A → M B) :
  api_only m → (∀ a, api_only (f a)) → api_only (m ≫= f).
Proof.
  intros Hm Hf w r w' e H ->.
  apply bind_inv in H as [(a & w1 & H1 & H2)|(e' & H1 & [= <-])].
  - by eapply Hf.
  - by eapply Hm.
Qed.

Lemma api_only_ret {A} (a : A) : api_only (mret a).
Proof. by intros w r w' e [= <- <-] ?. Qed.

Lemma api_only_remote who : api_only (remote who).
Proof.
  intros w r w' e. unfold remote.
  destruct (faults w) as [|[code|] fs]; intros [= <- <-] [= <-]. eauto.
Qed.

Lemma api_only_session_update f : api_only (session_update f).
Proof. intros w r w' e H ->. run_unfold. by simplify_eq. Qed.

Lemma api_only_the_collection : api_only the_collection.
Proof.
  intros w r w' e H ->. run_unfold. destruct (qdrant w); simplify_eq. eauto.
Qed.

Lemma api_only_put_collection c : api_only (put_collection c).
Proof. intros w r w' e H ->. run_unfold. by simplify_eq. Qed.

Lemma api_only_get_world {B} (f : World → M B) :
  (∀ w, api_only (f w)) → api_only (get_world ≫= f).
Proof. intros Hf w r w' e H. exact (Hf w w r w' e H). Qed.

Lemma api_only_count : api_only count.
Proof.
  unfold count. apply api_only_bind; [apply api_only_remote|intros _].
  apply api_only_bind; [apply api_only_the_collection|intros c].
  apply api_only_ret.
Qed.

Lemma api_only_upsert pts : api_only (upsert pts).
Proof.
  unfold upsert. apply api_only_bind; [apply api_only_remote|intros _].
  apply api_only_bind; [apply api_only_the_collection|intros c].
  apply api_only_put_collection.
Qed.

Lemma api_only_search cosine qv flt limit : api_only (search cosine qv flt limit).
Proof.
  unfold search. apply api_only_bind; [apply api_only_remote|intros _].
  apply api_only_bind; [apply api_only_the_collection|intros c].
  apply api_only_ret.
Qed.

Lemma api_only_scroll flt limit : api_only (scroll flt limit).
Proof.
  unfold scroll. apply api_only_bind; [apply api_only_remote|intros _].
  apply api_only_bind; [apply api_only_the_collection|intros c].
  apply api_only_ret.
Qed.

Lemma api_only_get_embeddings embedding text : api_only (get_embeddings embedding text).
Proof.
  unfold get_embeddings. apply api_only_bind; [apply api_only_remote|intros _].
  apply api_only_ret.
Qed.

Lemma api_only_transcribe_audio transcription audio_bytes :
  api_only (transcribe_audio transcription audio_bytes).
Proof.
  unfold transcribe_audio. apply api_only_bind; [apply api_only_remote|intros _].
  apply api_only_ret.
Qed.

Lemma api_only_assure_db_collection_exists : api_only assure_db_collection_exists.
Proof.
  unfold assure_db_collection_exists.
  apply api_only_bind.
  { unfold collection_exists. apply api_only_bind; [apply api_only_remote|intros _].
    apply api_only_get_world. intros w. apply api_only_ret. }
  intros b. apply api_only_bind.
  { destruct b; [apply api_only_ret|]. unfold create_collection.
    apply api_only_bind; [apply api_only_remote|intros _].
    apply api_only_get_world. intros w w0 r w' e H ->.
    run_unfold. destruct (qdrant w); simplify_eq. eauto. }
  intros _ w r w' e H ->. unfold try_except in H.
  destruct (create_payload_index "user_id" "keyword" w) as [[[]|e'] w1];
    unfold mret, M_ret in H; simplify_eq.
Qed.

Lemma transcribe_audio_same_state transcription audio_bytes w r w' :
  transcribe_audio transcription audio_bytes w = (r, w') → same_state w w'.
Proof. unfold transcribe_audio, same_state. one_call w; intros; by simplify_eq. Qed.

Lemma assure_db_collection_exists_session w r w' :
  assure_db_collection_exists w = (r, w') → session w' = session w.
Proof.
  unfold assure_db_collection_exists, collection_exists, create_collection,
    create_payload_index.
  intros H. destruct w as [[c|] s fs]; run_unfold; unfold remote in H.
  - destruct fs as [|[code1|] [|[code2|] fs]]; simpl in H; by simplify_eq.
  - destruct fs as [|[code1|] [|[code2|] [|[code3|] fs]]];
      simpl in H; by simplify_eq.
Qed.

Section Keys.

Variable embedding : pystr → Vector.
Variable cosine : Vector → Vector → Q.

Local Abbreviation select_notes := (select_notes embedding cosine).
Local Abbreviation list_notes_from_db := (list_notes_from_db embedding cosine).
Local Abbreviation refresh_search_results := (refresh_search_results embedding cosine).
Local Abbreviation add_note_to_db := (add_note_to_db embedding cosine).
Local Abbreviation note_added := (note_added embedding).

(** The only key [list_notes_from_db] can miss is the user. *)
Lemma list_notes_from_db_raised query w e w' :
  list_notes_from_db query w = (Raised e, w') →
  (e = KeyError "user_id" ∧ ss_user_id (session w) = None ∧ w' = w) ∨
  (is_Some (ss_user_id (session w)) ∧ ∃ who code, e = ApiError who code).
Proof.
  unfold_list_notes_from_db. unfold_select_notes. intros H.
  apply bind_inv in H as [(notes & w1 & _ & H)|(e' & H & [= <-])];
    [by run_unfold|].
  apply bind_inv in H as [(u & w1 & Hu & H)|(e' & Hu & [= <-])];
    apply session_item_inv in Hu as [-> Hu].
  - right. split; [destruct (ss_user_id (session w)); by simplify_eq|].
    assert (api_only (scroll (user_filter u) 10 ≫= λ page, mret page.1)) as Hbrowse.
    { apply api_only_bind; [apply api_only_scroll|intros; apply api_only_ret]. }
    destruct query as [q|]; [destruct (str_truthy q && str_truthy (strip q))|];
      try (by eapply Hbrowse).
    eapply (api_only_bind _ _ (api_only_get_embeddings _ _)); [|done..].
    intros v. apply api_only_search.
  - left. destruct (ss_user_id (session w)); by simplify_eq.
Qed.

(** What [add_note_to_db] raises: a missing user before anything is done,
    a missing [last_query] once the note is written, or the failure of a
    service. *)
Lemma add_note_to_db_raised note_text w e w' :
  add_note_to_db note_text w = (Raised e, w') →
  (e = KeyError "user_id" ∧ ss_user_id (session w) = None ∧ w' = w) ∨
  (e = KeyError "last_query" ∧
   get_truthy (has_searched (session w)) = true ∧
   last_query (session w) = None ∧
   session w' = session w ∧
   ∃ u c, ss_user_id (session w) = Some u ∧ qdrant w = Some c ∧
          qdrant w' = Some (note_added note_text u c)) ∨
  (is_Some (ss_user_id (session w)) ∧ ∃ who code, e = ApiError who code).
Proof.
  unfold_add_note_to_db. intros H.
  apply bind_inv in H as [(u & w1 & Hu & H)|(e' & Hu & [= <-])];
    apply session_item_inv in Hu as [-> Hu];
    [|left; destruct (ss_user_id (session w)); by simplify_eq].
  assert (ss_user_id (session w) = Some u) as Eu
    by (destruct (ss_user_id (session w)); by simplify_eq).
  clear Hu. right.
  apply bind_inv in H as [(n & w1 & Hn & H)|(e' & Hn & [= <-])];
    [|right; split; [by eexists|by eapply api_only_count]].
  apply count_inv in Hn as [[Hq1 Hs1] Hn].
  destruct (Hn n eq_refl) as (c & Hc & ->). clear Hn.
  apply bind_inv in H as [(v & w2 & Hv & H)|(e' & Hv & [= <-])];
    [|right; split; [by eexists|by eapply api_only_get_embeddings]].
  apply get_embeddings_inv in Hv as [[Hq2 Hs2] Hv].
  rewrite (Hv v eq_refl) in H. clear Hv.
  apply bind_inv in H as [([] & w3 & Hup & H)|(e' & Hup & [= <-])];
    [|right; split; [by eexists|by eapply api_only_upsert]].
  apply upsert_inv in Hup as [Hs3 (c' & Hc' & Hq3)].
  assert (c' = c) as -> by congruence.
  assert (session w3 = session w) as Hs by congruence.
  apply refresh_search_results_inv in H as [Hq H]. rewrite Hs in H.
  destruct (get_truthy (has_searched (session w))) eqn:Hflag; [|by destruct H].
  destruct H as [Hs' H]. destruct (last_query (session w)) as [q|] eqn:Hlq.
  - right. split; [by eexists|].
    apply list_notes_from_db_raised in H as [(_ & Hnone & _)|[_ H]]; [|done].
    rewrite Hs in Hnone. congruence.
  - left. destruct H as [-> ->]. split; [done|]. split; [done|]. split; [done|].
    split; [done|]. exists u, c. done.
Qed.

(** X11.  [add_note_to_db] raises a [KeyError] in two cases only: the
    session has no user, and then nothing is done, not even a call; or a
    search has been made and the session has no [last_query], and then the
    note is written all the same. *)
Theorem add_note_to_db_misses_a_key_in_two_cases note_text w key w' :
  add_note_to_db note_text w = (Raised (KeyError key), w') →
  (key = "user_id" ∧ ss_user_id (session w) = None ∧ w' = w) ∨
  (key = "last_query" ∧
   get_truthy (has_searched (session w)) = true ∧
   last_query (session w) = None ∧
   ∃ u c, ss_user_id (session w) = Some u ∧ qdrant w = Some c ∧
          qdrant w' = Some (note_added note_text u c)).
Proof.
  intros H.
  apply add_note_to_db_raised in H
    as [([= <-] & ? & ?)|[([= <-] & ? & ? & ? & ?)|(_ & who & code & ?)]];
    [by left|by right|done].
Qed.

End Keys.

(** ** The page *)

Ltac page_unfold :=
  unfold mbind, Run_bind, mret, Run_ret, page_update, page_item, page_read, show,
    lift in *;
  cbn [world page_state screen with_world with_page_state
       active_tab note_audio_bytes note_audio_bytes_md5 note_audio_text note_text
       set_active_tab set_note_audio_bytes set_note_audio_text set_note_text
       new_recording fst snd] in *.

(** Case analysis on every test of a piece of the script. *)
Ltac page_cases := repeat (case_match; simplify_eq; page_unfold).

Ltac split_andb :=
  repeat match goal with
  | H : _ && _ = true |- _ => apply andb_true_iff in H as [? ?]
  end.

Lemma sbind_inv {A B} (m : Run A) (f : A → Run B) p r p' :
  (m ≫= f) p = (r, p') →
  (∃ a p1, m p = (Returned a, p1) ∧ f a p1 = (r, p')) ∨
  (∃ e, m p = (Raised e, p') ∧ r = Raised e).
Proof.
  unfold mbind, Run_bind. destruct (m p) as [[a|e] p1]; intros H.
  - left. eauto.
  - right. exists e. by simplify_eq.
Qed.

Lemma lift_inv {A} (m : M A) p r p' :
  lift m p = (r, p') →
  ∃ w', m (world p) = (r, w') ∧ p' = with_world w' p.
Proof.
  unfold lift. destruct (m (world p)) as [r0 w'] eqn:Hm. intros [= <- <-]. eauto.
Qed.

Lemma get_str_truthy_Some v : get_str_truthy v = true → ∃ t, v = Some t ∧ t ≠ [].
Proof.
  destruct v as [t|]; [|done]. simpl. intros Ht%str_truthy_true. eauto.
Qed.

Section Pages.

Variable embedding : pystr → Vector.
Variable cosine : Vector → Vector → Q.
Variable transcription : list Z → pystr.
Variable md5_bytes_hexdigest : list Z → pystr.

Local Abbreviation add_note_to_db := (add_note_to_db embedding cosine).
Local Abbreviation list_notes_from_db := (list_notes_from_db embedding cosine).
Local Abbreviation note_added := (note_added embedding).
Local Abbreviation add_tab := (add_tab embedding cosine transcription md5_bytes_hexdigest).
Local Abbreviation search_tab := (search_tab embedding cosine).

Lemma add_note_to_db_collection note_text w r w' :
  add_note_to_db note_text w = (r, w') →
  qdrant w' = qdrant w ∨
  ∃ u c, ss_user_id (session w) = Some u ∧ qdrant w = Some c ∧
         qdrant w' = Some (note_added note_text u c).
Proof.
  intros H.
  apply add_note_to_db_inv in H as [(e & _ & Hq & _)|(u & c & w1 & Hu & Hc & Hc1 & _ & H)];
    [by left|].
  apply refresh_search_results_inv in H as [Hq _].
  right. exists u, c. split; [done|]. split; [done|]. congruence.
Qed.

(** X12.  The page saves no empty note: when a run of the add tab changes
    the collection, it has added one note, whose text is the text of the
    note in the session, and that text is not empty. *)
Theorem add_tab_saves_no_empty_note inp p r p' :
  add_tab inp p = (r, p') →
  qdrant (world p') = qdrant (world p) ∨
  ∃ t u c,
    t ≠ [] ∧ note_text (page_state p') = Some t ∧
    ss_user_id (session (world p)) = Some u ∧
    qdrant (world p) = Some c ∧
    qdrant (world p') = Some (note_added t u c).
Proof.
  unfold_add_tab. intros H. destruct p as [w ps scr].
  destruct (in_note_audio inp) as [b|]; page_unfold; [|left; by simplify_eq].
  page_cases;
    repeat match goal with
    | H : transcribe_audio _ _ _ = _ |- _ =>
        apply transcribe_audio_same_state in H as [? ?]
    end;
    try (left; simpl; congruence);
    split_andb;
    match goal with
    | H : add_note_to_db ?t _ = _, Ht : get_str_truthy (Some ?t) = true |- _ =>
        apply add_note_to_db_collection in H as [H|(u & c & Hu & Hc & Hc')];
        [left; congruence|];
        apply get_str_truthy_Some in Ht as (t' & [= <-] & Ht);
        right; exists t, u, c
    end;
    (split; [done|]); (split; [done|]); (split; [congruence|]);
    split; congruence.
Qed.

(** X13.  A new recording never keeps the text of the one before: when the
    digest of the recording is not the one of the session, the run leaves
    as transcript the empty string or the transcript of this recording,
    and as text of the note the empty string or what the text area holds
    for this transcript.  Digest and bytes of the session are those of the
    recording, however the run ends. *)
Theorem add_tab_drops_the_text_of_the_recording_before inp b p r p' :
  in_note_audio inp = Some b →
  note_audio_bytes_md5 (page_state p) ≠ Some (md5_bytes_hexdigest b) →
  add_tab inp p = (r, p') →
  note_audio_bytes (page_state p') = Some b ∧
  note_audio_bytes_md5 (page_state p') = Some (md5_bytes_hexdigest b) ∧
  (note_audio_text (page_state p') = Some [] ∨
   (in_transcribe inp = true ∧
    note_audio_text (page_state p') = Some (transcription b))) ∧
  (note_text (page_state p') = Some [] ∨
   (in_transcribe inp = true ∧ transcription b ≠ [] ∧
    note_text (page_state p') = Some (in_text_area inp))).
Proof.
  unfold_add_tab. intros Hb Hnew H. destruct p as [w ps scr].
  rewrite Hb in H. simpl in Hnew. page_unfold.
  rewrite bool_decide_eq_false_2 in H by done.
  page_cases;
    repeat match goal with
    | H : transcribe_audio _ _ ?w = (Returned _, _) |- _ =>
        unfold transcribe_audio in H; one_call w; simplify_eq
    | H : get_str_truthy (Some ?t) = true |- _ =>
        apply get_str_truthy_Some in H as (? & [= <-] & ?)
    end;
    simplify_eq; simpl; try done; eauto 10.
Qed.

(** X14.  A click on the search button never ends in a display.  The query
    is stored before the search: when the search fails, the session holds
    the new query with the results and the flag of the search before; when
    it returns, the results and the flag are stored and the script asks
    for a rerun. *)
Theorem search_click_stores_the_query_first inp p r p' :
  in_search inp = true →
  is_Some (last_query (session (world p))) →
  search_tab inp p = (r, p') →
  screen p' = screen p ∧
  qdrant (world p') = qdrant (world p) ∧
  last_query (session (world p')) = Some (in_query inp) ∧
  ((r = Raised RerunException ∧
    has_searched (session (world p')) = Some true ∧
    ∃ res w1,
      list_notes_from_db (Some (in_query inp))
        (with_session (set_last_query (in_query inp) (session (world p))) (world p))
      = (Returned res, w1) ∧
      search_results (session (world p')) = Some res)
   ∨
   (∃ e, r = Raised e ∧ e ≠ RerunException ∧
    has_searched (session (world p')) = has_searched (session (world p)) ∧
    search_results (session (world p')) = search_results (session (world p)))).
Proof.
  unfold_search_tab. intros Hclick [lq Hlq] H. destruct p as [w ps scr].
  rewrite Hclick in H. simpl in Hlq. page_unfold.
  rewrite (session_item_Some _ _ _ _ Hlq) in H.
  unfold session_update at 1 in H. run_unfold. page_unfold.
  destruct (list_notes_from_db (Some (in_query inp))
              (with_session (set_last_query (in_query inp) (session w)) w))
    as [[res|e] w1] eqn:Hlist.
  - pose proof Hlist as Hl. apply list_notes_from_db_inv in Hl as [[Hq Hs] _].
    unfold session_update in H. run_unfold. simpl in H. simplify_eq. simpl.
    rewrite Hs. simpl. split; [done|]. split; [done|]. split; [done|].
    left. split; [done|]. split; [done|]. eauto.
  - pose proof Hlist as Hl. apply list_notes_from_db_inv in Hl as [[Hq Hs] _].
    simplify_eq. simpl. rewrite Hs. simpl.
    split; [done|]. split; [done|]. split; [done|].
    right. exists e. split; [done|]. split; [|done].
    apply list_notes_from_db_raised in Hlist as [(-> & _)|(_ & who & code & ->)]; done.
Qed.

Lemma for_each_show_note res p :
  for_each res show_note p
  = (Returned tt, {| world := world p; page_state := page_state p;
                     screen := screen p ++ concat (card <$> res) |}).
Proof.
  revert p. induction res as [|note res IH]; intros p.
  - simpl. unfold mret, Run_ret. rewrite app_nil_r. by destruct p.
  - simpl. unfold show_note, card. page_unfold.
    destruct (score_truthy (e_score note)); page_unfold; rewrite IH; simpl;
      by rewrite <- !app_assoc.
Qed.

Lemma shown_texts_cards res : shown_texts (concat (card <$> res)) = e_text <$> res.
Proof.
  unfold shown_texts. induction res as [|note res IH]; [done|].
  rewrite fmap_cons. change (concat (card note :: (card <$> res)))
    with (card note ++ concat (card <$> res)).
  rewrite omap_app, IH. unfold card.
  by destruct (score_truthy (e_score note)).
Qed.

Lemma shown_scores_cards res :
  shown_scores (concat (card <$> res))
  = omap (λ note, if score_truthy (e_score note) then e_score note else None) res.
Proof.
  unfold shown_scores. induction res as [|note res IH]; [done|].
  rewrite fmap_cons. change (concat (card note :: (card <$> res)))
    with (card note ++ concat (card <$> res)).
  rewrite omap_app, IH. unfold card. simpl.
  destruct (e_score note) as [s|]; [|done].
  by destruct (score_truthy (Some s)).
Qed.

(** X15.  Without a click, the search tab shows the results of the
    session and touches nothing else.  With results: a header with their
    number, of the kind the stored query calls for, then the texts of the
    results in order, and of their scores those that are not zero: a score
    of zero is not shown, no more than an absent one.  Without results:
    the notice that nothing was found if a search has been made, nothing
    otherwise. *)
Theorem search_tab_shows_the_results inp p lq res hs :
  in_search inp = false →
  last_query (session (world p)) = Some lq →
  search_results (session (world p)) = Some res →
  has_searched (session (world p)) = Some hs →
  ∃ shown,
    search_tab inp p
    = (Returned tt, {| world := world p;
                       page_state := set_active_tab 1 (page_state p);
                       screen := screen p ++ shown |}) ∧
    match res with
    | [] => shown = if hs then [Info_brak_wynikow] else []
    | _ =>
        ∃ cards,
          shown = Subheader (if str_truthy (strip lq)
                             then Wyniki_wyszukiwania (length res)
                             else Wszystkie_notatki (length res)) :: cards ∧
          shown_texts cards = e_text <$> res ∧
          shown_scores cards
          = omap (λ note, if score_truthy (e_score note)
                          then e_score note else None) res
    end.
Proof.
  unfold_search_tab. intros Hclick Hlq Hres Hhs. destruct p as [w ps scr].
  rewrite Hclick. simpl in Hlq, Hres, Hhs. page_unfold.
  rewrite !(session_item_Some _ _ _ _ Hlq). page_unfold.
  rewrite !(session_item_Some _ _ _ _ Hres). page_unfold.
  destruct res as [|note res].
  - rewrite (session_item_Some _ _ _ _ Hhs). page_unfold.
    destruct hs; page_unfold; eexists; (split; [|done]); destruct w; simpl;
      by rewrite ?app_nil_r.
  - rewrite !(session_item_Some _ _ _ _ Hlq). page_unfold.
    rewrite !(session_item_Some _ _ _ _ Hres). page_unfold.
    rewrite for_each_show_note. simpl.
    eexists. split.
    + destruct w. simpl. by rewrite <- app_assoc.
    + eexists. split; [done|].
      split; [apply (shown_texts_cards (note :: res))|
              apply (shown_scores_cards (note :: res))].
Qed.

End Pages.

(** ** The script *)

Lemma carries_on_refl s : carries_on s s.
Proof. unfold carries_on. tauto. Qed.

Lemma carries_on_trans s1 s2 s3 :
  carries_on s1 s2 → carries_on s2 s3 → carries_on s1 s3.
Proof.
  unfold carries_on. intros (? & ? & ? & ? & ? & ?) (? & ? & ? & ? & ? & ?).
  repeat split; try congruence; tauto.
Qed.

Lemma carries_on_eq s s' : s' = s → carries_on s s'.
Proof. intros ->. apply carries_on_refl. Qed.

Lemma carries_on_set_search_results res s : carries_on s (set_search_results res s).
Proof. unfold carries_on. simpl. repeat split; try done; by eexists. Qed.

Lemma carries_on_set_last_query q s : carries_on s (set_last_query q s).
Proof. unfold carries_on. simpl. repeat split; try done; by eexists. Qed.

Lemma carries_on_set_has_searched b s : carries_on s (set_has_searched b s).
Proof. unfold carries_on. simpl. repeat split; try done; by eexists. Qed.

Lemma ready_carries_on s s' : ready s → carries_on s s' → ready s'.
Proof.
  unfold ready, carries_on. intros (? & ? & ? & ?) (? & ? & Hu & ? & ? & ?).
  rewrite Hu. tauto.
Qed.

Lemma credential_ok_carries_on md5 s s' :
  credential_ok md5 s → carries_on s s' → credential_ok md5 s'.
Proof.
  unfold credential_ok, carries_on. intros Hok (Hv & Hk & Hu & _).
  rewrite Hv, Hk, Hu. done.
Qed.

Section Scripts.

Variable embedding : pystr → Vector.
Variable cosine : Vector → Vector → Q.
Variable transcription : list Z → pystr.
Variable md5_hexdigest : pystr → pystr.
Variable md5_bytes_hexdigest : list Z → pystr.

Local Abbreviation add_note_to_db := (add_note_to_db embedding cosine).
Local Abbreviation list_notes_from_db := (list_notes_from_db embedding cosine).
Local Abbreviation get_api_key_securely := (get_api_key_securely md5_hexdigest).
Local Abbreviation add_tab := (add_tab embedding cosine transcription md5_bytes_hexdigest).
Local Abbreviation search_tab := (search_tab embedding cosine).
Local Abbreviation script :=
  (script embedding cosine transcription md5_hexdigest md5_bytes_hexdigest).
Local Abbreviation credential_ok := (credential_ok md5_hexdigest).

Lemma add_note_to_db_ready note_text w r w' :
  ready (session w) →
  add_note_to_db note_text w = (r, w') →
  (∀ k, r ≠ Raised (KeyError k)) ∧ carries_on (session w) (session w').
Proof.
  intros ([u Hu] & [q Hq] & _ & _) H. split.
  - intros k ->.
    apply add_note_to_db_raised in H as [(_ & ? & _)|[(_ & _ & ? & _)|(_ & ? & ? & ?)]];
      congruence.
  - apply add_note_to_db_inv in H
      as [(e & _ & _ & Hs)|(u' & c & w1 & _ & _ & _ & Hs1 & H)];
      [by apply carries_on_eq|].
    apply refresh_search_results_inv in H as [_ H]. rewrite Hs1 in H.
    destruct (get_truthy (has_searched (session w))); [|destruct H as [_ ->]; by apply carries_on_eq].
    destruct r as [[]|e].
    + destruct H as (q' & res & w2 & _ & Hl & ->).
      apply list_notes_from_db_inv in Hl as [[_ Hs2] _]. simpl.
      rewrite ?Hs1. apply carries_on_set_search_results.
    + destruct H as [Hs _]. apply carries_on_eq. congruence.
Qed.

Lemma list_notes_from_db_ready query w r w' :
  is_Some (ss_user_id (session w)) →
  list_notes_from_db query w = (r, w') →
  (∀ k, r ≠ Raised (KeyError k)) ∧ session w' = session w.
Proof.
  intros [u Hu] H. split.
  - intros k ->.
    apply list_notes_from_db_raised in H as [(_ & ? & _)|(_ & ? & ? & ?)]; congruence.
  - by apply list_notes_from_db_inv in H as [[_ ?] _].
Qed.

Lemma init_search_state_spec p :
  ∃ p', init_search_state p = (Returned tt, p') ∧
        qdrant (world p') = qdrant (world p) ∧
        carries_on (session (world p)) (session (world p')) ∧
        is_Some (last_query (session (world p'))) ∧
        is_Some (search_results (session (world p'))) ∧
        is_Some (has_searched (session (world p'))).
Proof.
  destruct p as [[c s fs] ps scr]. unfold init_search_state.
  destruct s as [v k u hs lq sr], ps as [[t|] nb nm nat nt];
    destruct hs, lq, sr; page_unfold; run_unfold; simpl;
    eexists; (split; [done|]); simpl; unfold carries_on; simpl;
    repeat split; try done; by eexists.
Qed.

Lemma add_tab_ready inp p r p' :
  ready (session (world p)) →
  add_tab inp p = (r, p') →
  (∀ k, r ≠ Raised (KeyError k)) ∧
  carries_on (session (world p)) (session (world p')).
Proof.
  unfold_add_tab. intros Hready H. destruct p as [w ps scr]. simpl in Hready.
  destruct (in_note_audio inp) as [b|]; page_unfold;
    [|simplify_eq; split; [done|apply carries_on_refl]].
  page_cases;
    repeat match goal with
    | H : transcribe_audio _ _ _ = (Returned _, _) |- _ =>
        apply transcribe_audio_same_state in H as [? ?]
    | H : transcribe_audio _ _ _ = (Raised _, _) |- _ =>
        destruct (api_only_transcribe_audio _ _ _ _ _ _ H eq_refl) as (? & ? & ->);
        apply transcribe_audio_same_state in H as [? ?]
    | Hs : session ?w1 = session ?w, H : add_note_to_db _ ?w1 = _ |- _ =>
        apply add_note_to_db_ready in H as [? ?]; [|by rewrite Hs];
        rewrite Hs in *
    | H : add_note_to_db _ _ = _ |- _ =>
        apply add_note_to_db_ready in H as [? ?]; [|done]
    end;
    simpl; (split; [try done|]);
    first [ done | by apply carries_on_eq | apply carries_on_refl ].
Qed.

Lemma search_tab_ready inp p r p' :
  ready (session (world p)) →
  search_tab inp p = (r, p') →
  (∀ k, r ≠ Raised (KeyError k)) ∧
  carries_on (session (world p)) (session (world p')).
Proof.
  unfold_search_tab. intros (Hu & [lq Hlq] & [res Hres] & [hs Hhs]) H.
  destruct p as [w ps scr]. simpl in Hu, Hlq, Hres, Hhs. page_unfold.
  rewrite (session_item_Some _ _ _ _ Hlq) in H. page_unfold.
  destruct (in_search inp).
  - unfold session_update at 1 in H. run_unfold. page_unfold.
    destruct (list_notes_from_db (Some (in_query inp))
                (with_session (set_last_query (in_query inp) (session w)) w))
      as [[found|e] w1] eqn:Hlist;
      apply list_notes_from_db_ready in Hlist as [Hkey Hs]; try done.
    + unfold session_update in H. run_unfold. simpl in H. simplify_eq. simpl.
      split; [done|]. rewrite Hs. simpl.
      eapply carries_on_trans; [apply carries_on_set_last_query|].
      eapply carries_on_trans; [apply carries_on_set_search_results|].
      apply carries_on_set_has_searched.
    + simplify_eq. simpl. split; [intros k [= ->]; by apply (Hkey k)|].
      rewrite Hs. simpl.
      apply carries_on_set_last_query.
  - page_unfold. rewrite !(session_item_Some _ _ _ _ Hres) in H. page_unfold.
    destruct res as [|note res].
    + rewrite (session_item_Some _ _ _ _ Hhs) in H. page_unfold.
      destruct hs; page_unfold; simplify_eq; simpl;
        (split; [done|apply carries_on_refl]).
    + rewrite !(session_item_Some _ _ _ _ Hlq) in H. page_unfold.
      rewrite !(session_item_Some _ _ _ _ Hres) in H. page_unfold.
      rewrite for_each_show_note in H. simplify_eq. simpl.
      split; [done|apply carries_on_refl].
Qed.

(** X16.  A run of the script reads no key of the session that is not
    there: from a session whose credential is whole (verified only with
    its key, and with the digest of the key as user), the run raises no
    [KeyError], whatever the widgets give and whatever the services do,
    and leaves a session whose credential is whole. *)
Theorem script_misses_no_key inp p r p' :
  credential_ok (session (world p)) →
  script inp p = (r, p') →
  (∀ k, r ≠ Raised (KeyError k)) ∧ credential_ok (session (world p')).
Proof.
  unfold_script. intros Hok H.
  apply sbind_inv in H as [(key & p1 & Hkey & H)|(e & Hkey & ->)];
    apply lift_inv in Hkey as (w1 & Hkey & ->);
    apply (get_api_key_securely_cases md5_hexdigest) in Hkey as [_ Hkey].
  2: { simpl. destruct Hkey as [(Hv & -> & Hk)|(_ & [([= ->] & _ & Hv & Hk & Hu)|([= ->] & Hv & _)])].
       - destruct (Hok Hv) as (k & Hk' & _). rewrite Hk' in Hk. done.
       - split; [done|]. intros _. eauto.
       - split; [done|]. intros Hv'. congruence. }
  destruct Hkey as [(Hv & -> & _)|(_ & [(? & _)|(? & _)])]; [|done..].
  destruct (Hok Hv) as (k & Hk & Hu).
  assert (with_world (world p) p = p) as Hp by (by destruct p).
  rewrite Hp in H. clear Hp.
  apply sbind_inv in H as [([] & p2 & Hassure & H)|(e & Hassure & ->)];
    apply lift_inv in Hassure as (w2 & Hassure & ->);
    pose proof (assure_db_collection_exists_session _ _ _ Hassure) as Hs2.
  2: { simpl. rewrite Hs2. split; [|done]. intros key' [= ->].
       destruct (api_only_assure_db_collection_exists _ _ _ _ Hassure eq_refl)
         as (? & ? & ?). done. }
  apply sbind_inv in H as [([] & p3 & Htitle & H)|(e & Htitle & ->)];
    [|by page_unfold].
  assert (session (world p3) = session (world p)) as Hs3
    by (page_unfold; by simplify_eq).
  clear Htitle.
  destruct (init_search_state_spec p3) as (p4 & Hinit & _ & Hcarry & Hlq & Hres & Hhs).
  apply sbind_inv in H as [([] & p4' & Hinit' & H)|(e & Hinit' & ->)];
    [|by rewrite Hinit in Hinit'].
  rewrite Hinit in Hinit'. injection Hinit' as <-.
  rewrite Hs3 in Hcarry.
  assert (ready (session (world p4))) as Hready.
  { split; [|done]. destruct Hcarry as (_ & _ & -> & _). by eexists. }
  apply sbind_inv in H as [([] & p5 & Hadd & H)|(e & Hadd & ->)];
    apply add_tab_ready in Hadd as [Hkey5 Hcarry5]; try done.
  2: { split; [done|].
       eauto using credential_ok_carries_on, carries_on_trans. }
  apply search_tab_ready in H as [Hkey6 Hcarry6];
    [|by eapply ready_carries_on].
  split; [done|].
  eauto using credential_ok_carries_on, carries_on_trans.
Qed.

End Scripts.

(** ** Instances of the further properties *)

Lemma list_notes_from_db_changes_nothing_witness :
  qdrant (sample_list (Some (py "milk")) w_three).2 = qdrant w_three ∧
  session (sample_list (Some (py "milk")) w_three).2 = session w_three.
Proof.
  apply (list_notes_from_db_changes_nothing sample_embedding sample_cosine
           (Some (py "milk")) w_three (sample_list (Some (py "milk")) w_three).1).
  apply surjective_pairing.
Defined.

Lemma list_notes_from_db_length_witness :
  owned alice w_ranked = 11%nat ∧
  length (returned_or [] (sample_list (Some (py "q")) w_ranked).1)
  = (10 `min` owned alice w_ranked)%nat.
Proof.
  split; [vm_compute; reflexivity|].
  apply (list_notes_from_db_length sample_embedding sample_cosine
           alice (Some (py "q")) w_ranked _ w_ranked).
  - reflexivity.
  - vm_compute. reflexivity.
Defined.

Lemma query_listing_holds_the_best_witness :
  ∃ s, getattr_score
         (ScoredPoint 2 (sample_cosine (sample_embedding (py "q"))
                           (sample_embedding (py "bb")))
            {| pl_text := py "bb"; pl_user_id := alice |}) = Some s ∧
       (sample_cosine (sample_embedding (py "q")) (sample_embedding (py "a")) <= s)%Q.
Proof.
  apply (query_listing_holds_the_best sample_embedding sample_cosine
           alice (py "q") w_ranked
           (returned_or [] (select_notes sample_embedding sample_cosine
                              (Some (py "q")) w_ranked).1)
           w_ranked
           (default {| points := ∅; payload_indexes := [] |} (qdrant w_ranked))
           1 (sample_embedding (py "a"))
           {| pl_text := py "a"; pl_user_id := alice |}).
  - reflexivity.
  - apply Exists_cons_hd. reflexivity.
  - vm_compute. reflexivity.
  - vm_compute. reflexivity.
  - vm_compute. reflexivity.
  - reflexivity.
  - apply (bool_decide_unpack _). vm_compute. exact I.
  - vm_compute. do 9 apply list_elem_of_further. apply list_elem_of_here.
Defined.

Lemma browse_listing_holds_the_lowest_ids_witness :
  hit_id (Record_ 10 {| pl_text := py "jjjjjjjjjj"; pl_user_id := alice |}) < 11.
Proof.
  apply (browse_listing_holds_the_lowest_ids sample_embedding sample_cosine
           alice None w_ranked
           (returned_or [] (select_notes sample_embedding sample_cosine None w_ranked).1)
           w_ranked
           (default {| points := ∅; payload_indexes := [] |} (qdrant w_ranked))
           11 (sample_embedding (py "kkkkkkkkkkk"))
           {| pl_text := py "kkkkkkkkkkk"; pl_user_id := alice |}).
  - reflexivity.
  - by left.
  - vm_compute. reflexivity.
  - vm_compute. reflexivity.
  - vm_compute. reflexivity.
  - reflexivity.
  - apply (bool_decide_unpack _). vm_compute. exact I.
  - vm_compute. do 9 apply list_elem_of_further. apply list_elem_of_here.
Defined.

Lemma listing_is_complete_up_to_ten_witness :
  let notes := returned_or [] (select_notes sample_embedding sample_cosine
                                 (Some (py "q")) w_three).1 in
  NoDup (hit_id <$> notes) ∧ 2 ∈ hit_id <$> notes.
Proof.
  destruct (listing_is_complete_up_to_ten sample_embedding sample_cosine
              alice (Some (py "q")) w_three
              (returned_or [] (select_notes sample_embedding sample_cosine
                                 (Some (py "q")) w_three).1)
              w_three) as [Hnodup Hall].
  - reflexivity.
  - vm_compute. reflexivity.
  - split; [exact Hnodup|].
    apply (Hall ltac:(vm_compute; lia) 2
             {| pl_text := py "call the plumber"; pl_user_id := alice |}).
    + unfold holds_note. vm_compute. eexists _, _. split; reflexivity.
    + reflexivity.
Defined.

Lemma add_note_to_db_replaces_at_a_taken_id_witness :
  holds_note w_gap 2 {| pl_text := py "keep me"; pl_user_id := bob |} ∧
  ∃ u c1,
    ss_user_id (session w_gap) = Some u ∧
    qdrant (sample_add (py "walk") w_gap).2 = Some c1 ∧
    points c1 !! next_id w_gap
      = Some (sample_embedding (py "walk"),
              {| pl_text := py "walk"; pl_user_id := u |}) ∧
    size (points c1)
      = size (points (default {| points := ∅; payload_indexes := [] |} (qdrant w_gap))) ∧
    next_id (sample_add (py "walk") w_gap).2 = next_id w_gap ∧
    ∀ j, j ≠ next_id w_gap →
      points c1 !! j
      = points (default {| points := ∅; payload_indexes := [] |} (qdrant w_gap)) !! j.
Proof.
  split; [unfold holds_note; vm_compute; eexists _, _; split; reflexivity|].
  apply (add_note_to_db_replaces_at_a_taken_id sample_embedding sample_cosine
           (py "walk") w_gap _ _
           (sample_embedding (py "keep me"),
            {| pl_text := py "keep me"; pl_user_id := bob |})).
  - vm_compute. reflexivity.
  - reflexivity.
  - vm_compute. reflexivity.
Defined.

Lemma add_note_to_db_leaves_the_listings_of_others_witness :
  (sample_list None (with_faults [] (with_session (sample_session bob) w_shared))).1
    = Returned [{| e_text := py "paint the fence"; e_score := None |}] ∧
  (sample_list None
     (with_faults [] (with_session (sample_session bob)
                        (sample_add (py "walk") w_shared).2))).1
  = (sample_list None (with_faults [] (with_session (sample_session bob) w_shared))).1.
Proof.
  split; [vm_compute; reflexivity|].
  apply (add_note_to_db_leaves_the_listings_of_others sample_embedding sample_cosine
           (py "walk") alice bob None w_shared).
  - reflexivity.
  - vm_compute. reflexivity.
  - intros pl (c & v & Hc & Hpt). vm_compute in Hc. simplify_eq.
  - discriminate.
  - reflexivity.
Defined.

Lemma assure_db_collection_exists_leaves_a_collection_witness :
  qdrant w_absent = None ∧
  session (assure_db_collection_exists w_absent).2 = session w_absent ∧
  ∃ c', qdrant (assure_db_collection_exists w_absent).2 = Some c' ∧
        points c' = match qdrant w_absent with Some c => points c | None => ∅ end.
Proof.
  split; [reflexivity|].
  apply (assure_db_collection_exists_leaves_a_collection w_absent).
  vm_compute. reflexivity.
Defined.

Lemma get_api_key_securely_returns_the_verified_key_witness :
  (get_api_key_securely sample_md5 (py "sk-9") w_verified).1 = Returned (py "sk-2") ∧
  api_key_verified (session w_verified) = Some true ∧
  openai_api_key (session w_verified) = Some (py "sk-2") ∧
  (get_api_key_securely sample_md5 (py "sk-9") w_verified).2 = w_verified.
Proof.
  split; [vm_compute; reflexivity|].
  apply (get_api_key_securely_returns_the_verified_key sample_md5 (py "sk-9")).
  vm_compute. reflexivity.
Defined.

Lemma get_api_key_securely_stores_an_accepted_key_only_witness :
  ss_user_id (session w_verified) = Some (sample_md5 (py "sk-2")) ∧
  qdrant w_verified = qdrant (fresh_world new_session) ∧
  (((get_api_key_securely sample_md5 (py "sk-2") (fresh_world new_session)).1
      = Raised RerunException ∧ py "sk-2" ≠ [] ∧
    api_key_verified (session w_verified) = Some true ∧
    openai_api_key (session w_verified) = Some (py "sk-2") ∧
    ss_user_id (session w_verified) = Some (sample_md5 (py "sk-2")))
   ∨
   ((get_api_key_securely sample_md5 (py "sk-2") (fresh_world new_session)).1
      = Raised StopException ∧
    api_key_verified (session w_verified) = Some false ∧
    openai_api_key (session w_verified) = openai_api_key (session (fresh_world new_session)) ∧
    ss_user_id (session w_verified) = ss_user_id (session (fresh_world new_session)) ∧
    (py "sk-2" = [] → faults w_verified = faults (fresh_world new_session)))).
Proof.
  split; [vm_compute; reflexivity|].
  apply (get_api_key_securely_stores_an_accepted_key_only sample_md5 (py "sk-2")
           (fresh_world new_session)).
  - discriminate.
  - apply surjective_pairing.
Defined.

Lemma add_note_to_db_misses_a_key_in_two_cases_witness :
  ("last_query" = "user_id" ∧ ss_user_id (session w_no_last_query) = None ∧
   (sample_add (py "walk") w_no_last_query).2 = w_no_last_query) ∨
  ("last_query" = "last_query" ∧
   get_truthy (has_searched (session w_no_last_query)) = true ∧
   last_query (session w_no_last_query) = None ∧
   ∃ u c, ss_user_id (session w_no_last_query) = Some u ∧
          qdrant w_no_last_query = Some c ∧
          qdrant (sample_add (py "walk") w_no_last_query).2
          = Some (note_added sample_embedding (py "walk") u c)).
Proof.
  apply (add_note_to_db_misses_a_key_in_two_cases sample_embedding sample_cosine
           (py "walk") w_no_last_query "last_query").
  vm_compute. reflexivity.
Defined.

Lemma add_tab_saves_no_empty_note_witness :
  holds_note (world (sample_add_tab transcribing (page_of w_alice empty_page_state)).2) 1
    {| pl_text := py "buy milk"; pl_user_id := alice |} ∧
  (qdrant (world (sample_add_tab transcribing (page_of w_alice empty_page_state)).2)
     = qdrant w_alice ∨
   ∃ t u c,
     t ≠ [] ∧
     note_text (page_state (sample_add_tab transcribing (page_of w_alice empty_page_state)).2)
       = Some t ∧
     ss_user_id (session w_alice) = Some u ∧
     qdrant w_alice = Some c ∧
     qdrant (world (sample_add_tab transcribing (page_of w_alice empty_page_state)).2)
       = Some (note_added sample_embedding t u c)).
Proof.
  split; [unfold holds_note; vm_compute; eexists _, _; split; reflexivity|].
  apply (add_tab_saves_no_empty_note sample_embedding sample_cosine
           sample_transcription sample_md5_bytes transcribing
           (page_of w_alice empty_page_state)
           (sample_add_tab transcribing (page_of w_alice empty_page_state)).1).
  apply surjective_pairing.
Defined.

Lemma add_tab_drops_the_text_of_the_recording_before_witness :
  let p' := (sample_add_tab saving (page_of w_alice old_page_state)).2 in
  qdrant (world p') = qdrant w_alice ∧
  note_audio_bytes (page_state p') = Some [73; 68; 51] ∧
  note_audio_bytes_md5 (page_state p') = Some (sample_md5_bytes [73; 68; 51]) ∧
  (note_audio_text (page_state p') = Some [] ∨
   (in_transcribe saving = true ∧
    note_audio_text (page_state p') = Some (sample_transcription [73; 68; 51]))) ∧
  (note_text (page_state p') = Some [] ∨
   (in_transcribe saving = true ∧ sample_transcription [73; 68; 51] ≠ [] ∧
    note_text (page_state p') = Some (in_text_area saving))).
Proof.
  split; [vm_compute; reflexivity|].
  apply (add_tab_drops_the_text_of_the_recording_before sample_embedding sample_cosine
           sample_transcription sample_md5_bytes saving [73; 68; 51]
           (page_of w_alice old_page_state)
           (sample_add_tab saving (page_of w_alice old_page_state)).1).
  - reflexivity.
  - discriminate.
  - apply surjective_pairing.
Defined.

Lemma search_click_stores_the_query_first_witness :
  let p := page_of w_three empty_page_state in
  let r := (sample_search_tab searching p).1 in
  let p' := (sample_search_tab searching p).2 in
  screen p' = screen p ∧
  qdrant (world p') = qdrant (world p) ∧
  last_query (session (world p')) = Some (in_query searching) ∧
  ((r = Raised RerunException ∧
    has_searched (session (world p')) = Some true ∧
    ∃ res w1,
      sample_list (Some (in_query searching))
        (with_session (set_last_query (in_query searching) (session (world p))) (world p))
      = (Returned res, w1) ∧
      search_results (session (world p')) = Some res)
   ∨
   (∃ e, r = Raised e ∧ e ≠ RerunException ∧
    has_searched (session (world p')) = has_searched (session (world p)) ∧
    search_results (session (world p')) = search_results (session (world p)))).
Proof.
  apply (search_click_stores_the_query_first sample_embedding sample_cosine
           searching (page_of w_three empty_page_state)).
  - reflexivity.
  - by eexists.
  - apply surjective_pairing.
Defined.

Lemma search_tab_shows_the_results_witness :
  let res := returned_or [] (sample_list (Some (py "milk")) w_three).1 in
  length res = 3%nat ∧
  ∃ shown,
    sample_search_tab idle page_searched
    = (Returned tt, {| world := world page_searched;
                       page_state := set_active_tab 1 (page_state page_searched);
                       screen := screen page_searched ++ shown |}) ∧
    match res with
    | [] => shown = [Info_brak_wynikow]
    | _ =>
        ∃ cards,
          shown = Subheader (if str_truthy (strip (py "milk"))
                             then Wyniki_wyszukiwania (length res)
                             else Wszystkie_notatki (length res)) :: cards ∧
          shown_texts cards = e_text <$> res ∧
          shown_scores cards
          = omap (λ note, if score_truthy (e_score note)
                          then e_score note else None) res
    end.
Proof.
  split; [vm_compute; reflexivity|].
  apply (search_tab_shows_the_results sample_embedding sample_cosine
           idle page_searched (py "milk")
           (returned_or [] (sample_list (Some (py "milk")) w_three).1) true).
  - reflexivity.
  - vm_compute. reflexivity.
  - vm_compute. reflexivity.
  - vm_compute. reflexivity.
Defined.

Lemma script_misses_no_key_witness :
  let p := page_of w_verified empty_page_state in
  (sample_script transcribing p).1 = Returned tt ∧
  (∀ k, (sample_script transcribing p).1 ≠ Raised (KeyError k)) ∧
  credential_ok sample_md5 (session (world (sample_script transcribing p).2)).
Proof.
  split; [vm_compute; reflexivity|].
  apply (script_misses_no_key sample_embedding sample_cosine sample_transcription
           sample_md5 sample_md5_bytes transcribing
           (page_of w_verified empty_page_state)).
  - intros _. exists (py "sk-2"). split; vm_compute; reflexivity.
  - apply surjective_pairing.
Defined.
